(** * Navigation history controller of the Next Order SL storefront

    The storefront is one React component.  Its navigation core keeps an
    application-level screen stack ([navStack]) on top of the browser's
    linear session history, listens to [popstate], and arbitrates every
    back press with two refs ([allowExitRef], [exitConfirmationShownRef]).

    The component exists in two variants, [src/script.js] and
    [src/unnamed/part_000]; module [Script] embeds the first and module
    [Part000] the second.  Both run on the same substrate, defined first:
    the hooks and refs of the component as one record, the primitive
    effects of the handlers as statements, and an interpreter that threads
    the record through a statement list and stops at the first throw.

    Modelling conventions.
    - A handler is a function from the state it reads to the list of
      effects it issues, in source order.  Every value a handler branches
      on is read before the handler writes it, so reading from the state
      at entry is what the source does.
    - [setX(v)] takes effect when issued, and a functional updater
      [setNavStack(f)] is applied once to the stack current at that
      moment: handlers run to completion, one at a time.  The statements
      of an updater are listed where the updater is queued, which is the
      order they run in.
    - After a handler, the component re-renders once and the effects whose
      dependency changed run ([effects]).
    - [window.history] is a recorder of the calls made to it, together with
      the fragment of the current location.
    - An exception surfaces where React puts it ([Fate]): thrown by a
      handler's own statement it leaves the handler and the component
      lives on; thrown inside a state updater or an effect it is raised in
      React's render or commit, and the component, which has no error
      boundary, is unmounted.  [exec] reports that a statement threw and
      the state it threw in; [fate] says where the exception went. *)

From Stdlib Require Import List String ZArith Bool Lia DecimalString.
From Stdlib Require HexadecimalString HexadecimalZ.
Import ListNotations.
Local Open Scope string_scope.
Local Open Scope list_scope.

(** ** Data model *)

(** The object stored on the stack and passed to [history.pushState]:
    [{type:'home'}], [{type:'tab', value}], [{type:'product', id}],
    [{type:'cms'}], [{type:'affiliate-tab', tab}]. *)
Inductive NavEntry : Type :=
| Home
| Tab (value : string)
| Product (id : Z)
| Cms
| AffiliateTab (tab : string).

(** A catalogue item.  Of its fields the navigation code reads [id] only
    ([find] compares it with [===]); [title] stands for the rest of the
    object. *)
Record ProductObj : Type := mkProduct { id : Z; title : string }.

Definition User : Type := string.

(** The state of [CustomModal]: [{ isOpen, title, message, type }]. *)
Record Modal : Type :=
  mkModal { isOpen : bool; modalTitle : string; message : string;
            modalType : string }.

(** The third argument of [pushState]: [window.location.href] (the URL
    the page is already at) or a literal relative URL. *)
Inductive UrlArg : Type :=
| LocationHref
| UrlString (u : string).

(** One call on [window.history].  The second argument of [pushState] is
    [''] in the navigation code and [null] in the fragment effect. *)
Inductive HistoryCall : Type :=
| CallPushState (state : option NavEntry) (unused : option string)
                (url : UrlArg)
| CallReplaceState (state : option NavEntry) (unused : option string)
                   (url : UrlArg)
| CallBack.

(** The hooks ([useState]), the refs ([useRef]) and the window. *)
Record State : Type := mkState {
  (* useState *)
  isLoggedIn : bool;
  isAdmin : bool;
  isAffiliate : bool;
  currentUser : option User;
  activeTab : string;
  selectedProduct : option ProductObj;
  showCMS : bool;
  modal : Modal;
  affiliateActiveTab : string;
  showExitConfirmation : bool;
  navStack : list NavEntry;
  (* useRef *)
  productsRef : list ProductObj;   (* written by catalogue code only *)
  isAdminRef : bool;
  isAffiliateRef : bool;
  allowExitRef : bool;
  exitConfirmationShownRef : bool;
  (* window *)
  locationHash : string;
  historyCalls : list HistoryCall
}.

(** Field updates, one per hook, ref and window field. *)

Definition set_isLoggedIn (v : bool) (s : State) : State :=
  mkState v (isAdmin s) (isAffiliate s) (currentUser s) (activeTab s)
    (selectedProduct s) (showCMS s) (modal s) (affiliateActiveTab s)
    (showExitConfirmation s) (navStack s) (productsRef s) (isAdminRef s)
    (isAffiliateRef s) (allowExitRef s) (exitConfirmationShownRef s)
    (locationHash s) (historyCalls s).

Definition set_isAdmin (v : bool) (s : State) : State :=
  mkState (isLoggedIn s) v (isAffiliate s) (currentUser s) (activeTab s)
    (selectedProduct s) (showCMS s) (modal s) (affiliateActiveTab s)
    (showExitConfirmation s) (navStack s) (productsRef s) (isAdminRef s)
    (isAffiliateRef s) (allowExitRef s) (exitConfirmationShownRef s)
    (locationHash s) (historyCalls s).

Definition set_isAffiliate (v : bool) (s : State) : State :=
  mkState (isLoggedIn s) (isAdmin s) v (currentUser s) (activeTab s)
    (selectedProduct s) (showCMS s) (modal s) (affiliateActiveTab s)
    (showExitConfirmation s) (navStack s) (productsRef s) (isAdminRef s)
    (isAffiliateRef s) (allowExitRef s) (exitConfirmationShownRef s)
    (locationHash s) (historyCalls s).

Definition set_currentUser (v : option User) (s : State) : State :=
  mkState (isLoggedIn s) (isAdmin s) (isAffiliate s) v (activeTab s)
    (selectedProduct s) (showCMS s) (modal s) (affiliateActiveTab s)
    (showExitConfirmation s) (navStack s) (productsRef s) (isAdminRef s)
    (isAffiliateRef s) (allowExitRef s) (exitConfirmationShownRef s)
    (locationHash s) (historyCalls s).

Definition set_activeTab (v : string) (s : State) : State :=
  mkState (isLoggedIn s) (isAdmin s) (isAffiliate s) (currentUser s) v
    (selectedProduct s) (showCMS s) (modal s) (affiliateActiveTab s)
    (showExitConfirmation s) (navStack s) (productsRef s) (isAdminRef s)
    (isAffiliateRef s) (allowExitRef s) (exitConfirmationShownRef s)
    (locationHash s) (historyCalls s).

Definition set_selectedProduct (v : option ProductObj) (s : State) : State :=
  mkState (isLoggedIn s) (isAdmin s) (isAffiliate s) (currentUser s)
    (activeTab s) v (showCMS s) (modal s) (affiliateActiveTab s)
    (showExitConfirmation s) (navStack s) (productsRef s) (isAdminRef s)
    (isAffiliateRef s) (allowExitRef s) (exitConfirmationShownRef s)
    (locationHash s) (historyCalls s).

Definition set_showCMS (v : bool) (s : State) : State :=
  mkState (isLoggedIn s) (isAdmin s) (isAffiliate s) (currentUser s)
    (activeTab s) (selectedProduct s) v (modal s) (affiliateActiveTab s)
    (showExitConfirmation s) (navStack s) (productsRef s) (isAdminRef s)
    (isAffiliateRef s) (allowExitRef s) (exitConfirmationShownRef s)
    (locationHash s) (historyCalls s).

Definition set_modal (v : Modal) (s : State) : State :=
  mkState (isLoggedIn s) (isAdmin s) (isAffiliate s) (currentUser s)
    (activeTab s) (selectedProduct s) (showCMS s) v (affiliateActiveTab s)
    (showExitConfirmation s) (navStack s) (productsRef s) (isAdminRef s)
    (isAffiliateRef s) (allowExitRef s) (exitConfirmationShownRef s)
    (locationHash s) (historyCalls s).

Definition set_affiliateActiveTab (v : string) (s : State) : State :=
  mkState (isLoggedIn s) (isAdmin s) (isAffiliate s) (currentUser s)
    (activeTab s) (selectedProduct s) (showCMS s) (modal s) v
    (showExitConfirmation s) (navStack s) (productsRef s) (isAdminRef s)
    (isAffiliateRef s) (allowExitRef s) (exitConfirmationShownRef s)
    (locationHash s) (historyCalls s).

Definition set_showExitConfirmation (v : bool) (s : State) : State :=
  mkState (isLoggedIn s) (isAdmin s) (isAffiliate s) (currentUser s)
    (activeTab s) (selectedProduct s) (showCMS s) (modal s)
    (affiliateActiveTab s) v (navStack s) (productsRef s) (isAdminRef s)
    (isAffiliateRef s) (allowExitRef s) (exitConfirmationShownRef s)
    (locationHash s) (historyCalls s).

Definition set_navStack (v : list NavEntry) (s : State) : State :=
  mkState (isLoggedIn s) (isAdmin s) (isAffiliate s) (currentUser s)
    (activeTab s) (selectedProduct s) (showCMS s) (modal s)
    (affiliateActiveTab s) (showExitConfirmation s) v (productsRef s)
    (isAdminRef s) (isAffiliateRef s) (allowExitRef s)
    (exitConfirmationShownRef s) (locationHash s) (historyCalls s).

Definition set_isAdminRef (v : bool) (s : State) : State :=
  mkState (isLoggedIn s) (isAdmin s) (isAffiliate s) (currentUser s)
    (activeTab s) (selectedProduct s) (showCMS s) (modal s)
    (affiliateActiveTab s) (showExitConfirmation s) (navStack s)
    (productsRef s) v (isAffiliateRef s) (allowExitRef s)
    (exitConfirmationShownRef s) (locationHash s) (historyCalls s).

Definition set_isAffiliateRef (v : bool) (s : State) : State :=
  mkState (isLoggedIn s) (isAdmin s) (isAffiliate s) (currentUser s)
    (activeTab s) (selectedProduct s) (showCMS s) (modal s)
    (affiliateActiveTab s) (showExitConfirmation s) (navStack s)
    (productsRef s) (isAdminRef s) v (allowExitRef s)
    (exitConfirmationShownRef s) (locationHash s) (historyCalls s).

Definition set_allowExitRef (v : bool) (s : State) : State :=
  mkState (isLoggedIn s) (isAdmin s) (isAffiliate s) (currentUser s)
    (activeTab s) (selectedProduct s) (showCMS s) (modal s)
    (affiliateActiveTab s) (showExitConfirmation s) (navStack s)
    (productsRef s) (isAdminRef s) (isAffiliateRef s) v
    (exitConfirmationShownRef s) (locationHash s) (historyCalls s).

Definition set_exitConfirmationShownRef (v : bool) (s : State) : State :=
  mkState (isLoggedIn s) (isAdmin s) (isAffiliate s) (currentUser s)
    (activeTab s) (selectedProduct s) (showCMS s) (modal s)
    (affiliateActiveTab s) (showExitConfirmation s) (navStack s)
    (productsRef s) (isAdminRef s) (isAffiliateRef s) (allowExitRef s) v
    (locationHash s) (historyCalls s).

Definition set_locationHash (v : string) (s : State) : State :=
  mkState (isLoggedIn s) (isAdmin s) (isAffiliate s) (currentUser s)
    (activeTab s) (selectedProduct s) (showCMS s) (modal s)
    (affiliateActiveTab s) (showExitConfirmation s) (navStack s)
    (productsRef s) (isAdminRef s) (isAffiliateRef s) (allowExitRef s)
    (exitConfirmationShownRef s) v (historyCalls s).

Definition set_historyCalls (v : list HistoryCall) (s : State) : State :=
  mkState (isLoggedIn s) (isAdmin s) (isAffiliate s) (currentUser s)
    (activeTab s) (selectedProduct s) (showCMS s) (modal s)
    (affiliateActiveTab s) (showExitConfirmation s) (navStack s)
    (productsRef s) (isAdminRef s) (isAffiliateRef s) (allowExitRef s)
    (exitConfirmationShownRef s) (locationHash s) v.

(** ** Primitive effects *)

Inductive Stmt : Type :=
| SetIsLoggedIn (b : bool)
| SetIsAdmin (b : bool)
| SetIsAffiliate (b : bool)
| SetCurrentUser (u : option User)
| SetActiveTab (t : string)
| SetSelectedProduct (p : option ProductObj)
| SetShowCMS (b : bool)
| SetModal (m : Modal)
| SetAffiliateActiveTab (t : string)
| SetShowExitConfirmation (b : bool)
| SetNavStack (l : list NavEntry)
| AssignIsAdminRef (b : bool)
| AssignIsAffiliateRef (b : bool)
| AssignAllowExitRef (b : bool)
| AssignExitConfirmationShownRef (b : bool)
| HistoryPushState (state : option NavEntry) (unused : option string)
                   (url : UrlArg)
| HistoryReplaceState (state : option NavEntry) (unused : option string)
                      (url : UrlArg)
| HistoryBack
| ThrowTypeError.

(** Whether [window.history] works.  [Unavailable]: every call on it
    throws (a sandboxed frame, or no [history] object at all). *)
Inductive HistoryApi : Type := Available | Unavailable.

Inductive Outcome : Type := Normal | Threw.

(** [location.hash] after a push to a fragment-only URL: the fragment,
    or [''] when the URL is ['#'] alone. *)
Definition hash_of_url (u : string) : string :=
  if String.eqb u "#" then "" else u.

Definition history_pushState (st : option NavEntry) (unused : option string)
    (url : UrlArg) (s : State) : State :=
  let s' := set_historyCalls
              (historyCalls s ++ [CallPushState st unused url]) s in
  match url with
  | LocationHref => s'
  | UrlString u => set_locationHash (hash_of_url u) s'
  end.

(** [replaceState] with the URL the page is at: the entry is kept, its
    state object replaced. *)
Definition history_replaceState (st : option NavEntry)
    (unused : option string) (url : UrlArg) (s : State) : State :=
  let s' := set_historyCalls
              (historyCalls s ++ [CallReplaceState st unused url]) s in
  match url with
  | LocationHref => s'
  | UrlString u => set_locationHash (hash_of_url u) s'
  end.

Definition history_back (s : State) : State :=
  set_historyCalls (historyCalls s ++ [CallBack]) s.

(** One statement.  [None] is a throw; the state is then left as it was. *)
Definition exec1 (api : HistoryApi) (c : Stmt) (s : State) : option State :=
  match c with
  | SetIsLoggedIn b => Some (set_isLoggedIn b s)
  | SetIsAdmin b => Some (set_isAdmin b s)
  | SetIsAffiliate b => Some (set_isAffiliate b s)
  | SetCurrentUser u => Some (set_currentUser u s)
  | SetActiveTab t => Some (set_activeTab t s)
  | SetSelectedProduct p => Some (set_selectedProduct p s)
  | SetShowCMS b => Some (set_showCMS b s)
  | SetModal m => Some (set_modal m s)
  | SetAffiliateActiveTab t => Some (set_affiliateActiveTab t s)
  | SetShowExitConfirmation b => Some (set_showExitConfirmation b s)
  | SetNavStack l => Some (set_navStack l s)
  | AssignIsAdminRef b => Some (set_isAdminRef b s)
  | AssignIsAffiliateRef b => Some (set_isAffiliateRef b s)
  | AssignAllowExitRef b => Some (set_allowExitRef b s)
  | AssignExitConfirmationShownRef b =>
      Some (set_exitConfirmationShownRef b s)
  | HistoryPushState st unused url =>
      match api with
      | Available => Some (history_pushState st unused url s)
      | Unavailable => None
      end
  | HistoryReplaceState st unused url =>
      match api with
      | Available => Some (history_replaceState st unused url s)
      | Unavailable => None
      end
  | HistoryBack =>
      match api with
      | Available => Some (history_back s)
      | Unavailable => None
      end
  | ThrowTypeError => None
  end.

(** A statement list, left to right, up to the first throw. *)
Fixpoint exec (api : HistoryApi) (prog : list Stmt) (s : State)
  : State * Outcome :=
  match prog with
  | [] => (s, Normal)
  | c :: rest =>
      match exec1 api c s with
      | Some s' => exec api rest s'
      | None => (s, Threw)
      end
  end.

(** The statements that were executed, each with the state it found and
    the state it left. *)
Fixpoint exec_steps (api : HistoryApi) (prog : list Stmt) (s : State)
  : list (State * Stmt * State) :=
  match prog with
  | [] => []
  | c :: rest =>
      match exec1 api c s with
      | Some s' => (s, c, s') :: exec_steps api rest s'
      | None => []
      end
  end.

(** ** Helpers shared by the handlers *)

(** [Array.prototype.find] with [p => p.id === i]. *)
Definition find_product (i : Z) (l : list ProductObj) : option ProductObj :=
  find (fun p => Z.eqb (id p) i) l.

(** [arr[arr.length - 1]]; [None] is [undefined]. *)
Definition last_entry (l : list NavEntry) : option NavEntry :=
  nth_error l (List.length l - 1).

(** The template literal [`#product-${id}`]. *)
Definition product_fragment (i : Z) : string :=
  String.append "#product-" (NilZero.string_of_int (Z.to_int i)).

(** [showModal(title, message, type)]. *)
Definition showModal (t m ty : string) : list Stmt :=
  [SetModal (mkModal true t m ty)].

Definition ProductObj_eqb (p q : ProductObj) : bool :=
  Z.eqb (id p) (id q) && String.eqb (title p) (title q).

(** The dependency comparison of [useEffect] on [selectedProduct]:
    [null] against [null], or the same product object.  An object is
    identified with its fields. *)
Definition same_selection (a b : option ProductObj) : bool :=
  match a, b with
  | None, None => true
  | Some p, Some q => ProductObj_eqb p q
  | _, _ => false
  end.

(** ** Events and the event loop *)

(** What can happen to the component: a [popstate] notification (the
    browser has already moved to an entry whose fragment is [hash]), a call
    of [pushNavState] or [navigateTo] from a click handler, the two
    buttons of the exit dialog, and logout. *)
Inductive Event : Type :=
| PopState (hash : string)
| PushNavState (navState : NavEntry)
| NavigateTo (target : string)
| ExitConfirm
| ExitCancel
| Logout.

(** The part of an event the browser performs before any handler runs. *)
Definition arrive (ev : Event) (s : State) : State :=
  match ev with
  | PopState hash => set_locationHash hash s
  | _ => s
  end.

Section EventLoop.

Variable handle : Event -> State -> list Stmt.
Variable effects : State -> State -> list Stmt.

(** One event: the handler, then the render's effects.  The run stops at
    the first statement that throws, and [Threw] reports it. *)
Definition react (api : HistoryApi) (ev : Event) (s : State)
  : State * Outcome :=
  let s0 := arrive ev s in
  let r := exec api (handle ev s0) s0 in
  match snd r with
  | Normal => exec api (effects s0 (fst r)) (fst r)
  | Threw => r
  end.

(** Every statement executed for one event, with the states around it. *)
Definition react_steps (api : HistoryApi) (ev : Event) (s : State)
  : list (State * Stmt * State) :=
  let s0 := arrive ev s in
  let r := exec api (handle ev s0) s0 in
  exec_steps api (handle ev s0) s0 ++
  match snd r with
  | Normal => exec_steps api (effects s0 (fst r)) (fst r)
  | Threw => []
  end.

(** The states the component goes through while it processes [ev]. *)
Definition instants (api : HistoryApi) (ev : Event) (s : State)
  : list State :=
  s :: arrive ev s ::
    map (fun st => snd st) (react_steps api ev s).

(** A sequence of events with a working [window.history]. *)
Fixpoint run (evs : list Event) (s : State) : State :=
  match evs with
  | [] => s
  | ev :: rest => run rest (fst (react Available ev s))
  end.

End EventLoop.

(** Where an exception raised while an event is processed ends up. *)
Inductive Fate : Type :=
| Completed     (* nothing threw *)
| LeftHandler   (* thrown by a statement of the handler itself: it leaves
                   the handler uncaught, the component lives on with what
                   was written before the throw *)
| Unmounted.    (* thrown inside a state updater or an effect: React
                   raises it while rendering or committing and, without an
                   error boundary, unmounts the component *)

Section Surface.

Variable effects : State -> State -> list Stmt.

(** One event whose handler runs [own] itself and [queued] inside the
    state updater it queues.  After an exception has left the handler
    React still renders what was set before it, so the effects run in
    that case too. *)
Definition surfaces (api : HistoryApi) (own queued : list Stmt)
    (s0 : State) : Fate :=
  let r := exec api own s0 in
  match snd r with
  | Threw =>
      match snd (exec api (effects s0 (fst r)) (fst r)) with
      | Normal => LeftHandler
      | Threw => Unmounted
      end
  | Normal =>
      let r' := exec api queued (fst r) in
      match snd r' with
      | Threw => Unmounted
      | Normal =>
          match snd (exec api (effects s0 (fst r')) (fst r')) with
          | Normal => Completed
          | Threw => Unmounted
          end
      end
  end.

End Surface.

(** The component right after its hooks are initialised (lines 665-749 of
    [script.js]): the session, the catalogue and the location are what
    storage and the browser provide, the rest is constant.  [productsRef]
    holds the catalogue; the navigation code never writes it. *)
Definition initial (loggedIn admin affiliate : bool) (user : option User)
    (catalogue : list ProductObj) (hash : string) : State :=
  {| isLoggedIn := loggedIn;
     isAdmin := admin;
     isAffiliate := affiliate;
     currentUser := user;
     activeTab := "home";
     selectedProduct := None;
     showCMS := false;
     modal := mkModal false "" "" "success";
     affiliateActiveTab := "home";
     showExitConfirmation := false;
     navStack := [Home];
     productsRef := catalogue;
     isAdminRef := admin;
     isAffiliateRef := affiliate;
     allowExitRef := false;
     exitConfirmationShownRef := false;
     locationHash := hash;
     historyCalls := [] |}.

(** ** The controller of [src/script.js] *)

Module Script.

(** Lines 839-864: the view restoration for the entry that is on top
    after the pop. *)
Definition restore (prevState : NavEntry) (s : State) : list Stmt :=
  match prevState with
  | Home =>
      [SetActiveTab "home"; SetSelectedProduct None; SetShowCMS false] ++
      (if isAffiliateRef s then [SetAffiliateActiveTab "home"] else [])
  | Tab value =>
      [SetActiveTab value; SetSelectedProduct None; SetShowCMS false]
  | Product i =>
      match find_product i (productsRef s) with
      | Some product => [SetSelectedProduct (Some product)]
      | None => [SetSelectedProduct None; SetActiveTab "home"]
      end
  | Cms => if isAdminRef s then [SetShowCMS true] else []
  | AffiliateTab tab =>
      if isAffiliateRef s then [SetAffiliateActiveTab tab] else []
  end.

(** Lines 828-867: the function [handlePopState] passes to [setNavStack].
    Its statements run inside the updater, not in the listener. *)
Definition popStateUpdater (s : State) : list Stmt :=
  let currentStack := navStack s in
  if Nat.leb (List.length currentStack) 1 then
    [AssignExitConfirmationShownRef true;
     SetShowExitConfirmation true;
     HistoryPushState None (Some "") LocationHref;
     SetNavStack currentStack]
  else
    let newStack := removelast currentStack in
    match last_entry newStack with
    | Some prevState => restore prevState s ++ [SetNavStack newStack]
    | None => [ThrowTypeError]
    end.

(** Lines 815-868: the listener returns early on either flag, and
    otherwise queues [popStateUpdater]. *)
Definition handlePopState (s : State) : list Stmt :=
  if allowExitRef s then
    [AssignAllowExitRef false]
  else if exitConfirmationShownRef s then
    [AssignExitConfirmationShownRef false;
     SetShowExitConfirmation false;
     HistoryPushState None (Some "") LocationHref]
  else
    popStateUpdater s.

(** Lines 872-874, in the effect that registers the listener at mount:
    [if (!window.history.state) replaceState({type:'home'}, '', href)].
    [historyState] is what [window.history.state] reads. *)
Definition mountEffect (historyState : option NavEntry) : list Stmt :=
  match historyState with
  | None => [HistoryReplaceState (Some Home) (Some "") LocationHref]
  | Some _ => []
  end.

(** Lines 879-882. *)
Definition pushNavState (navState : NavEntry) (s : State) : list Stmt :=
  [SetNavStack (navStack s ++ [navState]);
   HistoryPushState (Some navState) (Some "") LocationHref].

(** Lines 884-890; [target] is a string at every call site, so the
    [typeof] guard is passed. *)
Definition navigateTo (target : string) (s : State) : list Stmt :=
  [SetActiveTab target; SetSelectedProduct None] ++
  pushNavState (Tab target) s.

(** Lines 1594-1604. *)
Definition handleLogout (s : State) : list Stmt :=
  [SetIsLoggedIn false;
   SetIsAdmin false;
   SetIsAffiliate false;
   SetCurrentUser None;
   SetShowCMS false;
   SetActiveTab "home";
   SetAffiliateActiveTab "home";
   SetNavStack [Home]] ++
  showModal "Logged Out" "You have been successfully logged out." "info".

(** Lines 1611-1616. *)
Definition handleExitConfirm (s : State) : list Stmt :=
  [AssignExitConfirmationShownRef false;
   SetShowExitConfirmation false;
   AssignAllowExitRef true;
   HistoryBack].

(** Lines 1618-1622. *)
Definition handleExitCancel (s : State) : list Stmt :=
  [AssignExitConfirmationShownRef false;
   SetShowExitConfirmation false;
   HistoryPushState None (Some "") LocationHref].

(** The effects that depend on what the handlers write: the two ref
    updates of lines 764-765 and the fragment effect of lines 803-811. *)
Definition effects (before after : State) : list Stmt :=
  (if Bool.eqb (isAdmin before) (isAdmin after) then []
   else [AssignIsAdminRef (isAdmin after)]) ++
  (if Bool.eqb (isAffiliate before) (isAffiliate after) then []
   else [AssignIsAffiliateRef (isAffiliate after)]) ++
  (if same_selection (selectedProduct before) (selectedProduct after)
   then []
   else
     match selectedProduct after with
     | Some p =>
         [HistoryPushState None None (UrlString (product_fragment (id p)))]
     | None =>
         if String.prefix "#product-" (locationHash after)
         then [HistoryPushState None None (UrlString "#")]
         else []
     end).

Definition handle (ev : Event) (s : State) : list Stmt :=
  match ev with
  | PopState _ => handlePopState s
  | PushNavState navState => pushNavState navState s
  | NavigateTo target => navigateTo target s
  | ExitConfirm => handleExitConfirm s
  | ExitCancel => handleExitCancel s
  | Logout => handleLogout s
  end.

Definition step : HistoryApi -> Event -> State -> State * Outcome :=
  react handle effects.

Definition trace : list Event -> State -> State := run handle effects.

(** The statements of [handle ev s] that the handler runs itself.  Only
    [handlePopState] queues an updater with statements of its own; the
    updater of [pushNavState], [prev => [...prev, navState]], cannot
    throw. *)
Definition listener (ev : Event) (s : State) : list Stmt :=
  match ev with
  | PopState _ =>
      if allowExitRef s || exitConfirmationShownRef s
      then handlePopState s else []
  | _ => handle ev s
  end.

(** The statements of [handle ev s] that run inside a state updater. *)
Definition queued (ev : Event) (s : State) : list Stmt :=
  match ev with
  | PopState _ =>
      if allowExitRef s || exitConfirmationShownRef s
      then [] else popStateUpdater s
  | _ => []
  end.

Definition fate (api : HistoryApi) (ev : Event) (s : State) : Fate :=
  let s0 := arrive ev s in
  surfaces effects api (listener ev s0) (queued ev s0) s0.

End Script.

(** ** The controller of [src/unnamed/part_000] *)

Module Part000.

(** Lines 546-572. *)
Definition restore (prevState : NavEntry) (s : State) : list Stmt :=
  match prevState with
  | Home =>
      [SetActiveTab "home"; SetSelectedProduct None; SetShowCMS false] ++
      (if isAffiliateRef s then [SetAffiliateActiveTab "home"] else [])
  | Tab value =>
      [SetActiveTab value; SetSelectedProduct None; SetShowCMS false]
  | Product i =>
      match find_product i (productsRef s) with
      | Some product => [SetSelectedProduct (Some product)]
      | None =>
          (* Product not found, go to home *)
          [SetSelectedProduct None; SetActiveTab "home"]
      end
  | Cms => if isAdminRef s then [SetShowCMS true] else []
  | AffiliateTab tab =>
      if isAffiliateRef s then [SetAffiliateActiveTab tab] else []
  end.

(** Lines 531-575: the function [handlePopState] passes to [setNavStack].
    Its statements run inside the updater, not in the listener. *)
Definition popStateUpdater (s : State) : list Stmt :=
  let currentStack := navStack s in
  if Nat.leb (List.length currentStack) 1 then
    (* at the root: show the exit confirmation *)
    [AssignExitConfirmationShownRef true;
     SetShowExitConfirmation true;
     HistoryPushState None (Some "") LocationHref;
     SetNavStack currentStack]
  else
    let newStack := removelast currentStack in
    match last_entry newStack with
    | Some prevState => restore prevState s ++ [SetNavStack newStack]
    | None => [ThrowTypeError]
    end.

(** Lines 513-576: the listener returns early on either flag, and
    otherwise queues [popStateUpdater]. *)
Definition handlePopState (s : State) : list Stmt :=
  if allowExitRef s then
    (* user clicked YES: let the browser go back *)
    [AssignAllowExitRef false]
  else if exitConfirmationShownRef s then
    (* back pressed while the dialog is open: treat as NO *)
    [AssignExitConfirmationShownRef false;
     SetShowExitConfirmation false;
     HistoryPushState None (Some "") LocationHref]
  else
    popStateUpdater s.

(** Lines 581-583, in the effect that registers the listener at mount. *)
Definition mountEffect (historyState : option NavEntry) : list Stmt :=
  match historyState with
  | None => [HistoryReplaceState (Some Home) (Some "") LocationHref]
  | Some _ => []
  end.

(** Lines 589-592. *)
Definition pushNavState (navState : NavEntry) (s : State) : list Stmt :=
  [SetNavStack (navStack s ++ [navState]);
   HistoryPushState (Some navState) (Some "") LocationHref].

(** Lines 595-601. *)
Definition navigateTo (target : string) (s : State) : list Stmt :=
  [SetActiveTab target; SetSelectedProduct None] ++
  pushNavState (Tab target) s.

(** Lines 1217-1228. *)
Definition handleLogout (s : State) : list Stmt :=
  [SetIsLoggedIn false;
   SetIsAdmin false;
   SetIsAffiliate false;
   SetCurrentUser None;
   SetShowCMS false;
   SetActiveTab "home";
   SetAffiliateActiveTab "home";
   SetNavStack [Home]] ++
  showModal "Logged Out" "You have been successfully logged out." "info".

(** Lines 1237-1242. *)
Definition handleExitConfirm (s : State) : list Stmt :=
  [AssignExitConfirmationShownRef false;
   SetShowExitConfirmation false;
   AssignAllowExitRef true;
   HistoryBack].

(** Lines 1245-1250. *)
Definition handleExitCancel (s : State) : list Stmt :=
  [AssignExitConfirmationShownRef false;
   SetShowExitConfirmation false;
   HistoryPushState None (Some "") LocationHref].

(** Lines 401-407 and 500-508. *)
Definition effects (before after : State) : list Stmt :=
  (if Bool.eqb (isAdmin before) (isAdmin after) then []
   else [AssignIsAdminRef (isAdmin after)]) ++
  (if Bool.eqb (isAffiliate before) (isAffiliate after) then []
   else [AssignIsAffiliateRef (isAffiliate after)]) ++
  (if same_selection (selectedProduct before) (selectedProduct after)
   then []
   else
     match selectedProduct after with
     | Some p =>
         [HistoryPushState None None (UrlString (product_fragment (id p)))]
     | None =>
         if String.prefix "#product-" (locationHash after)
         then [HistoryPushState None None (UrlString "#")]
         else []
     end).

Definition handle (ev : Event) (s : State) : list Stmt :=
  match ev with
  | PopState _ => handlePopState s
  | PushNavState navState => pushNavState navState s
  | NavigateTo target => navigateTo target s
  | ExitConfirm => handleExitConfirm s
  | ExitCancel => handleExitCancel s
  | Logout => handleLogout s
  end.

Definition step : HistoryApi -> Event -> State -> State * Outcome :=
  react handle effects.

Definition trace : list Event -> State -> State := run handle effects.

(** The statements of [handle ev s] that the handler runs itself. *)
Definition listener (ev : Event) (s : State) : list Stmt :=
  match ev with
  | PopState _ =>
      if allowExitRef s || exitConfirmationShownRef s
      then handlePopState s else []
  | _ => handle ev s
  end.

(** The statements of [handle ev s] that run inside a state updater. *)
Definition queued (ev : Event) (s : State) : list Stmt :=
  match ev with
  | PopState _ =>
      if allowExitRef s || exitConfirmationShownRef s
      then [] else popStateUpdater s
  | _ => []
  end.

Definition fate (api : HistoryApi) (ev : Event) (s : State) : Fate :=
  let s0 := arrive ev s in
  surfaces effects api (listener ev s0) (queued ev s0) s0.

End Part000.

(** ** Observations the statements are written with *)

(** The trap: [pushState(null, '', window.location.href)]. *)
Definition trap : HistoryCall := CallPushState None (Some "") LocationHref.



(** A push that carries a stack entry: the one [pushNavState] makes. *)
Definition is_nav_push (c : HistoryCall) : bool :=
  match c with
  | CallPushState (Some _) _ _ => true
  | _ => false
  end.


Definition nav_pushes (log : list HistoryCall) : nat :=
  List.length (filter is_nav_push log).

Arguments nav_pushes : simpl never.




(** The URL the fragment effect is expected to push in a render that goes
    from [before] to [after]: none while the selected product is the same,
    the product's fragment when a product is selected, and ['#'] when the
    selection was cleared while the location is at a product fragment. *)
Definition fragment_due (before after : State) : option string :=
  if same_selection (selectedProduct before) (selectedProduct after)
  then None
  else
    match selectedProduct after with
    | Some p => Some (product_fragment (id p))
    | None =>
        if String.prefix "#product-" (locationHash after)
        then Some "#" else None
    end.

(** At most one of the two exit flags is set. *)
Definition exit_guard_ok (s : State) : Prop :=
  allowExitRef s && exitConfirmationShownRef s = false.

(** Idle: both flags clear. *)
Definition guard_idle (s : State) : bool :=
  negb (allowExitRef s || exitConfirmationShownRef s).

Definition idle (s : State) : Prop := guard_idle s = true.

(** Non-empty with [Home] at index 0. *)
Definition home_floor (l : list NavEntry) : Prop :=
  l <> [] /\ nth_error l 0 = Some Home.

(** The pop path of the back/forward handler as the specification words
    it: one entry less, and no physical push. *)
Definition pops_without_push (hash : string) (s : State) : Prop :=
  let s' := fst (Script.step Available (PopState hash) s) in
  navStack s' = removelast (navStack s) /\
  historyCalls s' = historyCalls s.


(** Logout as the specification words it: back to Idle at [[Home]], the
    dialog gone. *)
Definition logout_returns_to_idle (s : State) : Prop :=
  let s' := fst (Script.step Available Logout s) in
  navStack s' = [Home] /\ idle s' /\ showExitConfirmation s' = false.

(** Graceful degradation as the specification words it: with a failing
    [window.history] the operation completes and the stack is updated. *)
Definition degrades_to_noop (navState : NavEntry) (s : State) : Prop :=
  let r := exec Unavailable (Script.pushNavState navState s) s in
  snd r = Normal /\ navStack (fst r) = navStack s ++ [navState].

(** Idempotence of [cancelExit] as the specification words it: the same
    state, and one trap across the pair. *)
Definition cancel_twice_as_once (s : State) : Prop :=
  Script.trace [ExitCancel; ExitCancel] s = Script.trace [ExitCancel] s /\
  historyCalls (Script.trace [ExitCancel; ExitCancel] s) =
    historyCalls s ++ [trap].

(** ** The ledger of a run

    What each event is expected to add to the counts the stack length is
    compared with, decided from the state the event finds. *)




(** The state the render after [ev] starts from: what the handler left. *)
Definition rendered (ev : Event) (s : State) : State :=
  fst (exec Available (Script.handle ev (arrive ev s)) (arrive ev s)).

(** The events whose render owes a fragment push. *)
Definition reselects (ev : Event) (s : State) : nat :=
  match fragment_due (arrive ev s) (rendered ev s) with
  | Some _ => 1
  | None => 0
  end.


(** ** Sample states *)

Definition sample_catalogue : list ProductObj :=
  [mkProduct 1 "Wireless Bluetooth Headphones";
   mkProduct 2 "Smart Fitness Watch Pro";
   mkProduct 3 "Korean Skincare Set 5pcs"].

Definition at_load : State :=
  initial false false false None sample_catalogue "".

(** The dialog is open: one back press at the floor. *)
Definition dialog_open : State := Script.trace [PopState ""] at_load.

(** "Yes" was pressed in the dialog and the back press it triggers has
    not been delivered yet. *)
Definition exit_armed : State :=
  Script.trace [PopState ""; ExitConfirm] at_load.

(** [[Home; Product 7; Tab cart]] where product 7 is not in the catalogue. *)
Definition stale_product : State :=
  Script.trace [PushNavState (Product 7); PushNavState (Tab "cart")] at_load.

(** [[Home; Product 2; Tab cart]] where product 2 is in the catalogue. *)
Definition live_product : State :=
  Script.trace [PushNavState (Product 2); PushNavState (Tab "cart")] at_load.

(** ** Classes of statements *)

(** A statement of the view restoration: none of them writes the stack,
    a flag, the session or the window. *)
Definition view_only (c : Stmt) : Prop :=
  match c with
  | SetActiveTab _ | SetSelectedProduct _ | SetShowCMS _
  | SetAffiliateActiveTab _ => True
  | _ => False
  end.

(** What a run of view statements preserves. *)
Record same_core (s s' : State) : Prop := mkSameCore {
  core_navStack : navStack s' = navStack s;
  core_allowExit : allowExitRef s' = allowExitRef s;
  core_shown : exitConfirmationShownRef s' = exitConfirmationShownRef s;
  core_dialog : showExitConfirmation s' = showExitConfirmation s;
  core_calls : historyCalls s' = historyCalls s;
  core_hash : locationHash s' = locationHash s;
  core_admin : isAdmin s' = isAdmin s;
  core_affiliate : isAffiliate s' = isAffiliate s
}.

(** A statement an effect can issue: a ref update or a push without a
    stack entry. *)
Definition effect_only (c : Stmt) : Prop :=
  match c with
  | AssignIsAdminRef _ | AssignIsAffiliateRef _
  | HistoryPushState None _ _ => True
  | _ => False
  end.

(** What a run of effect statements preserves. *)
Record same_nav (s s' : State) : Prop := mkSameNav {
  nav_navStack : navStack s' = navStack s;
  nav_allowExit : allowExitRef s' = allowExitRef s;
  nav_shown : exitConfirmationShownRef s' = exitConfirmationShownRef s;
  nav_dialog : showExitConfirmation s' = showExitConfirmation s;
  nav_count : nav_pushes (historyCalls s') = nav_pushes (historyCalls s)
}.

(** A statement that sets one of the two exit flags. *)
Definition raises (c : Stmt) : bool :=
  match c with
  | AssignAllowExitRef true | AssignExitConfirmationShownRef true => true
  | _ => false
  end.

(** A step that sets a flag finds the other flag clear. *)
Definition sets_flag_safely (st : State * Stmt * State) : Prop :=
  let '(pre, c, _) := st in
  (c = AssignAllowExitRef true -> exitConfirmationShownRef pre = false) /\
  (c = AssignExitConfirmationShownRef true -> allowExitRef pre = false).

(** What one event does to the stack, the flags and the count of stack
    pushes, as a relation between the state before and the state after. *)
Definition summary (ev : Event) (s s' : State) : Prop :=
  match ev with
  | PopState _ =>
      nav_pushes (historyCalls s') = nav_pushes (historyCalls s) /\
      if allowExitRef s then
        navStack s' = navStack s /\ allowExitRef s' = false /\
        exitConfirmationShownRef s' = exitConfirmationShownRef s
      else if exitConfirmationShownRef s then
        navStack s' = navStack s /\ allowExitRef s' = false /\
        exitConfirmationShownRef s' = false
      else if Nat.leb (List.length (navStack s)) 1 then
        navStack s' = navStack s /\ allowExitRef s' = false /\
        exitConfirmationShownRef s' = true
      else
        navStack s' = removelast (navStack s) /\ allowExitRef s' = false /\
        exitConfirmationShownRef s' = false
  | PushNavState navState =>
      nav_pushes (historyCalls s') = S (nav_pushes (historyCalls s)) /\
      navStack s' = navStack s ++ [navState] /\
      allowExitRef s' = allowExitRef s /\
      exitConfirmationShownRef s' = exitConfirmationShownRef s
  | NavigateTo target =>
      nav_pushes (historyCalls s') = S (nav_pushes (historyCalls s)) /\
      navStack s' = navStack s ++ [Tab target] /\
      allowExitRef s' = allowExitRef s /\
      exitConfirmationShownRef s' = exitConfirmationShownRef s
  | ExitConfirm =>
      nav_pushes (historyCalls s') = nav_pushes (historyCalls s) /\
      navStack s' = navStack s /\ allowExitRef s' = true /\
      exitConfirmationShownRef s' = false
  | ExitCancel =>
      nav_pushes (historyCalls s') = nav_pushes (historyCalls s) /\
      navStack s' = navStack s /\ allowExitRef s' = allowExitRef s /\
      exitConfirmationShownRef s' = false
  | Logout =>
      nav_pushes (historyCalls s') = nav_pushes (historyCalls s) /\
      navStack s' = [Home] /\ allowExitRef s' = allowExitRef s /\
      exitConfirmationShownRef s' = exitConfirmationShownRef s
  end.

(** ** The click handlers that call the navigation functions *)

(** The [onClick] handlers of [src/script.js] that call [pushNavState] or
    [window.history.back].  A click handler runs after the effects of the
    last render, so the [products] it closes over is the array
    [productsRef.current] was assigned from. *)
Module ScriptUi.

(** Lines 2239-2246. *)
Definition handleCartProductClick (product : ProductObj) (s : State)
  : list Stmt :=
  match find_product (id product) (productsRef s) with
  | Some fullProduct =>
      [SetSelectedProduct (Some fullProduct)] ++
      Script.pushNavState (Product (id fullProduct)) s ++
      [SetActiveTab "home"]
  | None => []
  end.

(** Lines 2359-2362: a product card of the home grid. *)
Definition productCardOnClick (product : ProductObj) (s : State)
  : list Stmt :=
  [SetSelectedProduct (Some product)] ++
  Script.pushNavState (Product (id product)) s.

(** Lines 2748-2751: the Admin CMS Panel button of the account page. *)
Definition cmsPanelOnClick (s : State) : list Stmt :=
  [SetShowCMS true] ++ Script.pushNavState Cms s.

(** Lines 2820-2823: Back to Site, in the CMS side bar. *)
Definition backToSiteOnClick (s : State) : list Stmt :=
  [SetShowCMS false; HistoryBack].

(** Line 2420: the arrow of the product page. *)
Definition productDetailBackOnClick (s : State) : list Stmt :=
  [HistoryBack].

(** Lines 1789-1792: a tab of the affiliate dashboard. *)
Definition affiliateTabOnClick (tab : string) (s : State) : list Stmt :=
  [SetAffiliateActiveTab tab] ++ Script.pushNavState (AffiliateTab tab) s.

(** A navigation event or a click. *)
Inductive Action : Type :=
| Core (ev : Event)
| CartProductClick (product : ProductObj)
| ProductCardClick (product : ProductObj)
| CmsPanelClick
| BackToSiteClick
| ProductDetailBackClick
| AffiliateTabClick (tab : string).

Definition handle (a : Action) (s : State) : list Stmt :=
  match a with
  | Core ev => Script.handle ev s
  | CartProductClick product => handleCartProductClick product s
  | ProductCardClick product => productCardOnClick product s
  | CmsPanelClick => cmsPanelOnClick s
  | BackToSiteClick => backToSiteOnClick s
  | ProductDetailBackClick => productDetailBackOnClick s
  | AffiliateTabClick tab => affiliateTabOnClick tab s
  end.

(** The browser's part of an action: only a [popstate] has one. *)
Definition arrival (a : Action) (s : State) : State :=
  match a with
  | Core ev => arrive ev s
  | _ => s
  end.

(** One action: the handler, then the render's effects, as [react]. *)
Definition step (api : HistoryApi) (a : Action) (s : State)
  : State * Outcome :=
  let s0 := arrival a s in
  let r := exec api (handle a s0) s0 in
  match snd r with
  | Normal => exec api (Script.effects s0 (fst r)) (fst r)
  | Threw => r
  end.

Fixpoint trace (acts : list Action) (s : State) : State :=
  match acts with
  | [] => s
  | a :: rest => trace rest (fst (step Available a s))
  end.

(** What the page shows in its [main] element. *)
Inductive Screen : Type :=
| AffiliateDashboard
| ProductDetail (product : ProductObj)
| HomeGrid
| CartPage
| MessagesPage
| MicroJobsPage
| AdvertiserPage
| AuthForm
| CmsPanel
| AccountPage
| Nothing.

(** Lines 2572-2669, the branches of [renderAccount]. *)
Definition renderAccount (s : State) : Screen :=
  if negb (isLoggedIn s) then AuthForm
  else if isAffiliate s then AffiliateDashboard
  else if showCMS s && isAdmin s then CmsPanel
  else AccountPage.

(** Lines 3135-3143, the conditional chain inside [main]. *)
Definition renderMain (s : State) : Screen :=
  if isAffiliate s then AffiliateDashboard
  else match selectedProduct s with
  | Some product => ProductDetail product
  | None =>
      if String.eqb (activeTab s) "home" then HomeGrid
      else if String.eqb (activeTab s) "cart" then CartPage
      else if String.eqb (activeTab s) "messages" then MessagesPage
      else if String.eqb (activeTab s) "jobs" then MicroJobsPage
      else if String.eqb (activeTab s) "advertise" then AdvertiserPage
      else if String.eqb (activeTab s) "account" then renderAccount s
      else Nothing
  end.

End ScriptUi.

(** What a click does to the navigation state: the flags stay, and the
    stack either stays or grows by one entry together with one stack
    push. *)
Definition keeps_or_pushes (s t : State) : Prop :=
  allowExitRef t = allowExitRef s /\
  exitConfirmationShownRef t = exitConfirmationShownRef s /\
  ((navStack t = navStack s /\
    nav_pushes (historyCalls t) = nav_pushes (historyCalls s)) \/
   (exists e : NavEntry,
      navStack t = navStack s ++ [e] /\
      nav_pushes (historyCalls t) = S (nav_pushes (historyCalls s)))).

(** An administrator on the account tab with the CMS open. *)
Definition admin_in_cms : State :=
  ScriptUi.trace
    [ScriptUi.Core (NavigateTo "account"); ScriptUi.CmsPanelClick]
    (initial true true false (Some "admin") sample_catalogue "").

(** A session without administrator privilege, the CMS closed. *)
Definition cms_locked (s : State) : Prop :=
  isAdmin s = false /\ isAdminRef s = false /\ showCMS s = false.

(** ** [simpleHash] (lines 288-296 of [script.js]) *)

Module SimpleHash.

Local Open Scope Z_scope.

(** ToInt32: the value modulo 2^32, taken in [-2^31, 2^31). *)
Definition toInt32 (z : Z) : Z := (z + 2 ^ 31) mod 2 ^ 32 - 2 ^ 31.

(** [a << 5] on numbers. *)
Definition shl5 (a : Z) : Z := toInt32 (toInt32 a * 2 ^ 5).

(** [a & b] on numbers. *)
Definition band (a b : Z) : Z := Z.land (toInt32 a) (toInt32 b).

(** [str.charCodeAt(i)], for a string of code units below 256. *)
Definition charCode (c : Ascii.ascii) : Z := Z.of_N (Ascii.N_of_ascii c).

(** The body of the loop: [hash = ((hash << 5) - hash) + char;
    hash = hash & hash]. *)
Definition round (hash : Z) (c : Ascii.ascii) : Z :=
  let hash1 := (shl5 hash - hash) + charCode c in
  band hash1 hash1.

(** The loop, from a given value of [hash]. *)
Fixpoint loop (hash : Z) (str : string) : Z :=
  match str with
  | EmptyString => hash
  | String c rest => loop (round hash c) rest
  end.

(** [n.toString(16)] for an integer [n]. *)
Definition toString16 (n : Z) : string :=
  HexadecimalString.NilZero.string_of_int (Z.to_hex_int n).

Definition simpleHash (str : string) : string :=
  toString16 (loop 0 str).

End SimpleHash.

(** ** The flash sale countdown (lines 907-930 of [script.js]) *)

Module FlashSale.

Record TimeLeft : Type :=
  mkTimeLeft { hours : Z; minutes : Z; seconds : Z }.

(** The [useState] initial value, line 742. *)
Definition start : TimeLeft := mkTimeLeft 4 23 15.

(** The updater passed to [setFlashSaleTimeLeft] every second. *)
Definition tick (prev : TimeLeft) : TimeLeft :=
  let seconds := (seconds prev - 1)%Z in
  if (seconds <? 0)%Z then
    let seconds := 59%Z in
    let minutes := (minutes prev - 1)%Z in
    if (minutes <? 0)%Z then
      let minutes := 59%Z in
      let hours := (hours prev - 1)%Z in
      if (hours <? 0)%Z then mkTimeLeft 4 23 15
      else mkTimeLeft hours minutes seconds
    else mkTimeLeft (hours prev) minutes seconds
  else mkTimeLeft (hours prev) (minutes prev) seconds.

Fixpoint ticks (n : nat) (t : TimeLeft) : TimeLeft :=
  match n with
  | O => t
  | S n' => ticks n' (tick t)
  end.

(** The time left, in seconds. *)
Definition total (t : TimeLeft) : Z :=
  (hours t * 3600 + minutes t * 60 + seconds t)%Z.

(** A clock reading: minutes and seconds below 60, nothing negative. *)
Definition reading (t : TimeLeft) : Prop :=
  (0 <= hours t /\ 0 <= minutes t < 60 /\ 0 <= seconds t < 60)%Z.

End FlashSale.

(** ** Infinite scroll (lines 975-987 of [script.js]) *)

Module Scroll.

Section Scroll.

Variable A : Type.

(** The hooks [page], [displayedProducts] and [hasMore]. *)
Record Paging : Type :=
  mkPaging { page : nat; displayedProducts : list A; hasMore : bool }.

(** [arr.slice(start, end)] for [0 <= start <= end]. *)
Definition slice (l : list A) (first last : nat) : list A :=
  firstn (last - first) (skipn first l).

(** The state the effect of lines 989-993 resets to. *)
Definition reset : Paging := mkPaging 0 [] true.

(** Lines 975-987.  The callback is created by a render and closes over
    that render's [page] (its dependency list is
    [[page, filteredProducts]]): [pageAtRender].  Its two writes are
    functional updaters, which apply to the hooks current at the call:
    [st]. *)
Definition loadMoreProducts (filteredProducts : list A)
    (pageAtRender : nat) (st : Paging) : Paging :=
  let itemsPerPage := 10 in
  let first := pageAtRender * itemsPerPage in
  let last := first + itemsPerPage in
  let newProducts := slice filteredProducts first last in
  if Nat.eqb (List.length newProducts) 0 then
    mkPaging (page st) (displayedProducts st) false
  else
    mkPaging (page st + 1) (displayedProducts st ++ newProducts)
             (hasMore st).

(** A call made by the callback of the latest render: the page it closed
    over is the hook's value. *)
Definition loadFromRender (filteredProducts : list A) (st : Paging)
  : Paging :=
  loadMoreProducts filteredProducts (page st) st.

(** [n] calls, each from a fresh render. *)
Fixpoint loads (n : nat) (filteredProducts : list A) (st : Paging)
  : Paging :=
  match n with
  | O => st
  | S n' => loads n' filteredProducts (loadFromRender filteredProducts st)
  end.

(** Two calls made by the callback of one render, before the component
    renders again: both close over the same [page]. *)
Definition loadTwiceFromRender (filteredProducts : list A) (st : Paging)
  : Paging :=
  loadMoreProducts filteredProducts (page st)
    (loadMoreProducts filteredProducts (page st) st).

End Scroll.

End Scroll.

(** ** Login (lines 1045-1083 of [script.js]) *)

Module Auth.

(** An entry of [affiliateUsers] or [registeredUsers]: the fields the
    login code reads.  [status] is absent on registered users. *)
Record Account : Type :=
  mkAccount { name : string; email : string; password : string;
              status : option string }.

(** [adminCredentials]: the e-mail and the hashed password. *)
Record Credentials : Type :=
  mkCredentials { adminEmail : string; adminPassword : string }.

(** The object [handleLogin] passes to [setCurrentUser]:
    [{ name: 'Administrator', email, role: 'admin' }],
    [{ ...affiliate, role: 'affiliate' }], or the registered user. *)
Inductive SessionUser : Type :=
| Administrator (email : string)
| Affiliate (affiliate : Account)
| Registered (user : Account).

Record LoginForm : Type :=
  mkLoginForm { formEmail : string; formPassword : string }.

(** The hooks [handleLogin] writes. *)
Record Session : Type := mkSession {
  isLoggedIn : bool;
  isAdmin : bool;
  isAffiliate : bool;
  currentUser : option SessionUser;
  loginForm : LoginForm;
  authError : string;
  modal : Modal
}.

(** The hooks it only reads. *)
Record Users : Type := mkUsers {
  adminCredentials : Credentials;
  affiliateUsers : list Account;
  registeredUsers : list Account
}.

(** [u => u.email === loginForm.email && u.password === hashed]. *)
Definition matches (form : LoginForm) (hashed : string) (u : Account)
  : bool :=
  String.eqb (email u) (formEmail form) && String.eqb (password u) hashed.

(** [affiliate.status === 'active']. *)
Definition active (u : Account) : bool :=
  match status u with
  | Some st => String.eqb st "active"
  | None => false
  end.

Definition handleLogin (db : Users) (s : Session) : Session :=
  let form := loginForm s in
  let hashedInputPassword := SimpleHash.simpleHash (formPassword form) in
  if String.eqb (formEmail form) (adminEmail (adminCredentials db)) &&
     String.eqb hashedInputPassword (adminPassword (adminCredentials db))
  then
    mkSession true true false
      (Some (Administrator (adminEmail (adminCredentials db))))
      (mkLoginForm "" "") ""
      (mkModal true "Welcome Back!"
         "You have successfully logged in as Administrator." "success")
  else
    let affiliate :=
      find (matches form hashedInputPassword) (affiliateUsers db) in
    (* the code after the affiliate branch's [return] *)
    let registered :=
      match find (matches form hashedInputPassword)
              (registeredUsers db) with
      | Some user =>
          mkSession true false false (Some (Registered user))
            (mkLoginForm "" "") ""
            (mkModal true "Welcome Back!"
               (String.append "Welcome back, "
                  (String.append (name user) "!")) "success")
      | None =>
          mkSession (isLoggedIn s) (isAdmin s) (isAffiliate s)
            (currentUser s) form "Invalid email or password"
            (mkModal true "Login Failed"
               "Invalid email or password. Please try again." "error")
      end in
    match affiliate with
    | Some a =>
        if active a then
          mkSession true false true (Some (Affiliate a))
            (mkLoginForm "" "") ""
            (mkModal true "Welcome Back!"
               (String.append "Welcome back, "
                  (String.append (name a) "!")) "success")
        else registered
    | None => registered
    end.

(** The form as the user has filled it in. *)
Definition typed (e p : string) (s : Session) : Session :=
  mkSession (isLoggedIn s) (isAdmin s) (isAffiliate s) (currentUser s)
    (mkLoginForm e p) (authError s) (modal s).

End Auth.

(** A user data base: the default administrator (lines 536-541), a
    suspended affiliate followed by an active one with the same
    credentials, and one registered user. *)
Definition sample_users : Auth.Users :=
  Auth.mkUsers
    (Auth.mkCredentials "admin@nextordersl.com"
       (SimpleHash.simpleHash "admin123"))
    [Auth.mkAccount "Sam" "sam@example.com"
       (SimpleHash.simpleHash "secretAa") (Some "suspended");
     Auth.mkAccount "Sam" "sam@example.com"
       (SimpleHash.simpleHash "secretAa") (Some "active")]
    [Auth.mkAccount "Rani" "rani@example.com"
       (SimpleHash.simpleHash "hunter22") None].

(** Nobody logged in, the form empty. *)
Definition logged_out : Auth.Session :=
  Auth.mkSession false false false None (Auth.mkLoginForm "" "") ""
    (mkModal false "" "" "success").

(** ** [deleteProduct] (lines 1454-1478 of [script.js]) *)

Module Catalogue.

Section Catalogue.

(** A product object, of which the code reads [id] and [affiliateId]
    ([None] when the property is absent). *)
Variable P : Type.
Variable pid : P -> Z.
Variable affiliateId : P -> option Z.

(** [affiliateProductIds]: an object from affiliate ids to arrays of
    product ids; [None] where it has no property. *)
Definition IdsMap : Type := Z -> option (list Z).

(** The hooks [deleteProduct] writes. *)
Record Store : Type := mkStore {
  products : list P;
  affiliateProductIds : IdsMap;
  modal : Modal
}.

(** What it reads besides: the two role flags, [currentUser?.id], and
    the answer to [confirm(...)]. *)
Record Caller : Type := mkCaller {
  isAdmin : bool;
  isAffiliate : bool;
  currentUserId : option Z;
  confirms : bool
}.

(** [a !== b] on values that are a number or [undefined]. *)
Definition differs (a b : option Z) : bool :=
  match a, b with
  | Some x, Some y => negb (Z.eqb x y)
  | None, None => false
  | _, _ => true
  end.

(** [products.filter(p => p.id !== id)]. *)
Definition without (i : Z) (l : list P) : list P :=
  filter (fun p => negb (Z.eqb (pid p) i)) l.

(** [{...prev, [k]: (prev[k] || []).filter(pid => pid !== id)}]. *)
Definition forget (k i : Z) (prev : IdsMap) : IdsMap :=
  fun k' =>
    if Z.eqb k' k then
      Some (filter (fun x => negb (Z.eqb x i))
              (match prev k with Some l => l | None => [] end))
    else prev k'.

Definition deleteProduct (who : Caller) (i : Z) (st : Store)
  : Store * Outcome :=
  if negb (isAdmin who) && negb (isAffiliate who) then
    (mkStore (products st) (affiliateProductIds st)
       (mkModal true "Access Denied"
          "You do not have permission to delete products." "error"),
     Normal)
  else
    match find (fun p => Z.eqb (pid p) i) (products st) with
    | None =>
        (* [product] is [undefined]: reading [product.affiliateId]
           throws *)
        if isAffiliate who then (st, Threw)
        else if confirms who then
          (mkStore (without i (products st)) (affiliateProductIds st)
             (modal st), Threw)
        else (st, Normal)
    | Some product =>
        if isAffiliate who &&
           differs (affiliateId product) (currentUserId who)
        then
          (mkStore (products st) (affiliateProductIds st)
             (mkModal true "Access Denied"
                "You can only delete your own products." "error"),
           Normal)
        else if confirms who then
          (mkStore (without i (products st))
             (match affiliateId product with
              | Some k =>
                  if Z.eqb k 0 then affiliateProductIds st
                  else forget k i (affiliateProductIds st)
              | None => affiliateProductIds st
              end)
             (mkModal true "Deleted"
                "Product has been deleted successfully." "success"),
           Normal)
        else (st, Normal)
    end.

End Catalogue.

End Catalogue.

(** The sample catalogue as a store: product 3 belongs to affiliate 77. *)
Definition sample_owner (p : ProductObj) : option Z :=
  if Z.eqb (id p) 3 then Some 77%Z else None.

Definition sample_store : Catalogue.Store ProductObj :=
  Catalogue.mkStore ProductObj sample_catalogue
    (fun k => if Z.eqb k 77 then Some [3%Z] else None)
    (mkModal false "" "" "success").

(** An administrator and affiliate 77, both answering OK. *)
Definition admin_caller : Catalogue.Caller :=
  Catalogue.mkCaller true false None true.

Definition affiliate_caller : Catalogue.Caller :=
  Catalogue.mkCaller false true (Some 77%Z) true.

(** [[Home; Product 2; Tab cart]] after the administrator has deleted
    product 2. *)
Definition after_deletion : State :=
  Script.trace [PushNavState (Product 2); PushNavState (Tab "cart")]
    (initial false true false (Some "admin")
       (Catalogue.products ProductObj
          (fst (Catalogue.deleteProduct ProductObj id sample_owner
                  admin_caller 2 sample_store)))
       "").

(** * Properties *)

(** ** The interpreter *)

Lemma exec_app (api : HistoryApi) (p q : list Stmt) (s : State) :
  exec api (p ++ q) s =
  match snd (exec api p s) with
  | Normal => exec api q (fst (exec api p s))
  | Threw => exec api p s
  end.
Proof.
  revert s; induction p as [|c p IH]; intros s; simpl.
  - reflexivity.
  - destruct (exec1 api c s) as [s'|]; [apply IH | reflexivity].
Qed.

(** ** Stack helpers *)

Lemma length_removelast_pred (l : list NavEntry) :
  List.length (removelast l) = List.length l - 1.
Proof.
  rewrite removelast_firstn_len, length_firstn. lia.
Qed.

Lemma last_entry_removelast (l : list NavEntry) :
  1 < List.length l -> exists top, last_entry (removelast l) = Some top.
Proof.
  intros H. unfold last_entry.
  destruct (nth_error (removelast l) (List.length (removelast l) - 1))
    as [top|] eqn:E.
  - now exists top.
  - apply nth_error_None in E. rewrite length_removelast_pred in E. lia.
Qed.

Lemma removelast_keeps_head (l : list NavEntry) :
  1 < List.length l -> nth_error (removelast l) 0 = nth_error l 0.
Proof.
  destruct l as [|a [|b l]]; simpl; intros H; try lia. reflexivity.
Qed.

Lemma last_entry_snoc (l : list NavEntry) (a : NavEntry) :
  last_entry (l ++ [a]) = Some a.
Proof.
  unfold last_entry. rewrite length_app. simpl.
  rewrite nth_error_app2 by lia.
  replace (List.length l + 1 - 1 - List.length l) with 0 by lia.
  reflexivity.
Qed.

Lemma removelast_two (l : list NavEntry) (a b : NavEntry) :
  removelast (l ++ [a; b]) = l ++ [a].
Proof. rewrite removelast_app by discriminate. reflexivity. Qed.

(** ** Restoration touches the view only *)

Lemma restore_view_only (top : NavEntry) (s : State) :
  Forall view_only (Script.restore top s).
Proof.
  destruct top; simpl.
  - destruct (isAffiliateRef s); repeat constructor.
  - repeat constructor.
  - destruct (find_product id0 (productsRef s)); repeat constructor.
  - destruct (isAdminRef s); repeat constructor.
  - destruct (isAffiliateRef s); repeat constructor.
Qed.

Lemma exec_view_only (api : HistoryApi) (prog : list Stmt) (s : State) :
  Forall view_only prog ->
  snd (exec api prog s) = Normal /\ same_core s (fst (exec api prog s)).
Proof.
  intros H; revert s; induction H as [|c prog Hc _ IH]; intros s; simpl.
  - split; [reflexivity | now constructor].
  - destruct c; simpl in Hc; try contradiction; simpl;
      match goal with
      | |- context [exec api prog ?t] =>
          destruct (IH t) as [Hn [? ? ? ? ? ? ? ?]]
      end; (split; [exact Hn | constructor; simpl in *; congruence]).
Qed.

(** ** The back/forward handler *)

Lemma handlePopState_pop (s : State) (top : NavEntry) :
  allowExitRef s = false ->
  exitConfirmationShownRef s = false ->
  1 < List.length (navStack s) ->
  last_entry (removelast (navStack s)) = Some top ->
  forall api : HistoryApi,
    exec api (Script.handlePopState s) s =
    (set_navStack (removelast (navStack s))
       (fst (exec api (Script.restore top s) s)), Normal).
Proof.
  intros Ha Hc Hlen Htop api.
  unfold Script.handlePopState, Script.popStateUpdater.
  rewrite Ha, Hc. cbv zeta.
  destruct (Nat.leb_spec (List.length (navStack s)) 1) as [Hle|_]; [lia|].
  rewrite Htop, exec_app.
  destruct (exec_view_only api _ s (restore_view_only top s)) as [Hn _].
  rewrite Hn. reflexivity.
Qed.

(** ** Effects *)

Lemma nav_pushes_app (l l' : list HistoryCall) :
  nav_pushes (l ++ l') = nav_pushes l + nav_pushes l'.
Proof. unfold nav_pushes. now rewrite filter_app, length_app. Qed.

Lemma effects_effect_only (before after : State) :
  Forall effect_only (Script.effects before after).
Proof.
  unfold Script.effects.
  apply Forall_app; split; [|apply Forall_app; split].
  - destruct (Bool.eqb _ _); [constructor|].
    constructor; [exact I | constructor].
  - destruct (Bool.eqb _ _); [constructor|].
    constructor; [exact I | constructor].
  - destruct (same_selection _ _); [constructor|].
    destruct (selectedProduct after).
    + constructor; [exact I | constructor].
    + destruct (String.prefix _ _); [|constructor].
      constructor; [exact I | constructor].
Qed.

Lemma same_nav_refl (s : State) : same_nav s s.
Proof. now constructor. Qed.

Lemma same_nav_trans (s t u : State) :
  same_nav s t -> same_nav t u -> same_nav s u.
Proof. intros [] []; constructor; congruence. Qed.

Lemma exec1_effect_only (c : Stmt) (s : State) :
  effect_only c ->
  exists s', exec1 Available c s = Some s' /\ same_nav s s'.
Proof.
  destruct c; simpl; try contradiction.
  - intros _. eexists; split; [reflexivity | now constructor].
  - intros _. eexists; split; [reflexivity | now constructor].
  - destruct state; [contradiction|]. intros _.
    eexists; split; [reflexivity|].
    destruct url; constructor; try reflexivity;
      cbn [history_pushState historyCalls set_historyCalls set_locationHash];
      rewrite nav_pushes_app; unfold nav_pushes; cbn; lia.
Qed.

Lemma exec_effect_only (prog : list Stmt) (s : State) :
  Forall effect_only prog ->
  snd (exec Available prog s) = Normal /\
  same_nav s (fst (exec Available prog s)).
Proof.
  intros H; revert s; induction H as [|c prog Hc _ IH]; intros s; simpl.
  - split; [reflexivity | apply same_nav_refl].
  - destruct (exec1_effect_only c s Hc) as [s' [E Hs]]. rewrite E.
    destruct (IH s') as [Hn Hs']. split; [exact Hn|].
    eapply same_nav_trans; eassumption.
Qed.

(** One event with a working [window.history]: the handler's result, then
    the effects, which leave the navigation state alone. *)
Lemma step_after_handler (ev : Event) (s : State) :
  snd (exec Available (Script.handle ev (arrive ev s)) (arrive ev s))
    = Normal ->
  snd (Script.step Available ev s) = Normal /\
  same_nav (fst (exec Available (Script.handle ev (arrive ev s))
                   (arrive ev s)))
           (fst (Script.step Available ev s)).
Proof.
  intros Hn. unfold Script.step, react. cbv zeta. rewrite Hn.
  apply exec_effect_only, effects_effect_only.
Qed.

(** ** What one event does to the navigation state *)

Lemma summary_same_nav (ev : Event) (s t u : State) :
  same_nav t u -> summary ev s t -> summary ev s u.
Proof.
  intros [Hst Hal Hsh _ Hco]. unfold summary.
  rewrite Hst, Hal, Hsh, Hco. exact (fun H => H).
Qed.

Lemma nav_pushes_snoc_entry (l : list HistoryCall) (e : NavEntry)
    (u : option string) (url : UrlArg) :
  nav_pushes (l ++ [CallPushState (Some e) u url]) = S (nav_pushes l).
Proof. rewrite nav_pushes_app. unfold nav_pushes. cbn. lia. Qed.

Lemma nav_pushes_snoc_null (l : list HistoryCall) (u : option string)
    (url : UrlArg) :
  nav_pushes (l ++ [CallPushState None u url]) = nav_pushes l.
Proof. rewrite nav_pushes_app. unfold nav_pushes. cbn. lia. Qed.

Lemma nav_pushes_snoc_back (l : list HistoryCall) :
  nav_pushes (l ++ [CallBack]) = nav_pushes l.
Proof. rewrite nav_pushes_app. unfold nav_pushes. cbn. lia. Qed.

Lemma handlePopState_summary (hash : string) (s : State) :
  let s0 := arrive (PopState hash) s in
  snd (exec Available (Script.handlePopState s0) s0) = Normal /\
  summary (PopState hash) s
    (fst (exec Available (Script.handlePopState s0) s0)).
Proof.
  cbv zeta. unfold summary.
  destruct (allowExitRef s) eqn:Ha.
  { unfold Script.handlePopState, Script.popStateUpdater.
    cbn [arrive allowExitRef set_locationHash].
    rewrite Ha. cbn. auto. }
  destruct (exitConfirmationShownRef s) eqn:Hc.
  { unfold Script.handlePopState, Script.popStateUpdater.
    cbn [arrive allowExitRef exitConfirmationShownRef set_locationHash].
    rewrite Ha, Hc. cbn. rewrite nav_pushes_snoc_null. auto. }
  destruct (Nat.leb_spec (List.length (navStack s)) 1) as [Hle|Hgt].
  { unfold Script.handlePopState, Script.popStateUpdater.
    cbn [arrive allowExitRef exitConfirmationShownRef navStack
         set_locationHash].
    rewrite Ha, Hc. cbv zeta.
    destruct (Nat.leb_spec (List.length (navStack s)) 1) as [_|Hgt];
      [|lia].
    cbn. rewrite nav_pushes_snoc_null. auto. }
  destruct (last_entry_removelast (navStack s) Hgt) as [top Htop].
  rewrite (handlePopState_pop (arrive (PopState hash) s) top Ha Hc Hgt Htop).
  destruct (exec_view_only Available _ (arrive (PopState hash) s)
              (restore_view_only top (arrive (PopState hash) s)))
    as [_ [Hst Hal Hsh _ Hca _ _ _]].
  cbn [fst snd navStack allowExitRef exitConfirmationShownRef historyCalls
       set_navStack].
  rewrite Hca, Hal, Hsh. cbn. auto.
Qed.

Lemma handler_summary (ev : Event) (s : State) :
  let s0 := arrive ev s in
  snd (exec Available (Script.handle ev s0) s0) = Normal /\
  summary ev s (fst (exec Available (Script.handle ev s0) s0)).
Proof.
  destruct ev as [hash|navState|target| | |].
  - apply handlePopState_summary.
  - cbn. rewrite nav_pushes_snoc_entry. auto.
  - cbn. rewrite nav_pushes_snoc_entry. auto.
  - cbn. rewrite nav_pushes_snoc_back. auto.
  - cbn. rewrite nav_pushes_snoc_null. auto.
  - cbn. auto.
Qed.

Lemma step_summary (ev : Event) (s : State) :
  snd (Script.step Available ev s) = Normal /\
  summary ev s (fst (Script.step Available ev s)).
Proof.
  destruct (handler_summary ev s) as [Hn Hs].
  destruct (step_after_handler ev s Hn) as [Hn' Hnav].
  split; [exact Hn'|]. eapply summary_same_nav; eassumption.
Qed.

(** ** Invariants of the event loop *)

Lemma initial_home_floor (loggedIn admin affiliate : bool)
    (user : option User) (catalogue : list ProductObj) (hash : string) :
  home_floor
    (navStack (initial loggedIn admin affiliate user catalogue hash)).
Proof. split; [discriminate | reflexivity]. Qed.

Lemma home_floor_snoc (l : list NavEntry) (e : NavEntry) :
  home_floor l -> home_floor (l ++ [e]).
Proof.
  intros [Hne H0]. destruct l as [|a l]; [contradiction|].
  split; [discriminate | exact H0].
Qed.

Lemma home_floor_removelast (l : list NavEntry) :
  1 < List.length l -> home_floor l -> home_floor (removelast l).
Proof.
  intros Hlen [_ H0]. split.
  - intros E. apply (f_equal (@List.length NavEntry)) in E.
    rewrite length_removelast_pred in E. simpl in E. lia.
  - now rewrite removelast_keeps_head.
Qed.

Lemma step_home_floor (ev : Event) (s : State) :
  home_floor (navStack s) ->
  home_floor (navStack (fst (Script.step Available ev s))).
Proof.
  intros H. destruct (step_summary ev s) as [_ Hs].
  destruct ev as [hash|navState|target| | |]; cbn [summary] in Hs.
  - destruct Hs as [_ Hs].
    destruct (allowExitRef s); [destruct Hs as [-> _]; exact H|].
    destruct (exitConfirmationShownRef s);
      [destruct Hs as [-> _]; exact H|].
    destruct (Nat.leb_spec (List.length (navStack s)) 1) as [_|Hgt];
      destruct Hs as [-> _]; [exact H|].
    now apply home_floor_removelast.
  - destruct Hs as [_ [-> _]]. now apply home_floor_snoc.
  - destruct Hs as [_ [-> _]]. now apply home_floor_snoc.
  - destruct Hs as [_ [-> _]]. exact H.
  - destruct Hs as [_ [-> _]]. exact H.
  - destruct Hs as [_ [-> _]]. split; [discriminate | reflexivity].
Qed.

Lemma trace_home_floor (evs : list Event) (s : State) :
  home_floor (navStack s) -> home_floor (navStack (Script.trace evs s)).
Proof.
  revert s; induction evs as [|ev evs IH]; intros s H; simpl.
  - exact H.
  - apply IH, step_home_floor, H.
Qed.

(** C2.  From page load, after any sequence of events (pushes, back
    notifications, the two dialog buttons, logout) the stack is non-empty
    and its entry at index 0 is [Home]. *)
Theorem navStack_floor_is_home (loggedIn admin affiliate : bool)
    (user : option User) (catalogue : list ProductObj) (hash : string)
    (evs : list Event) :
  let s := Script.trace evs
             (initial loggedIn admin affiliate user catalogue hash) in
  navStack s <> [] /\ nth_error (navStack s) 0 = Some Home.
Proof.
  cbv zeta. apply trace_home_floor, initial_home_floor.
Qed.

Lemma step_exit_guard (ev : Event) (s : State) :
  exit_guard_ok s -> exit_guard_ok (fst (Script.step Available ev s)).
Proof.
  unfold exit_guard_ok. intros H. destruct (step_summary ev s) as [_ Hs].
  destruct ev as [hash|navState|target| | |]; cbn [summary] in Hs.
  - destruct Hs as [_ Hs].
    destruct (allowExitRef s); [destruct Hs as [_ [-> _]]; reflexivity|].
    destruct (exitConfirmationShownRef s);
      [destruct Hs as [_ [-> _]]; reflexivity|].
    destruct (Nat.leb (List.length (navStack s)) 1);
      destruct Hs as [_ [-> _]]; reflexivity.
  - destruct Hs as [_ [_ [-> ->]]]. exact H.
  - destruct Hs as [_ [_ [-> ->]]]. exact H.
  - destruct Hs as [_ [_ [-> ->]]]. reflexivity.
  - destruct Hs as [_ [_ [_ ->]]]. apply andb_false_r.
  - destruct Hs as [_ [_ [-> ->]]]. exact H.
Qed.

Lemma trace_exit_guard (evs : list Event) (s : State) :
  exit_guard_ok s -> exit_guard_ok (Script.trace evs s).
Proof.
  revert s; induction evs as [|ev evs IH]; intros s H; simpl.
  - exact H.
  - apply IH, step_exit_guard, H.
Qed.

Lemma exec1_exit_guard (api : HistoryApi) (c : Stmt) (s s' : State) :
  exec1 api c s = Some s' ->
  exit_guard_ok s -> sets_flag_safely (s, c, s') -> exit_guard_ok s'.
Proof.
  unfold exit_guard_ok, sets_flag_safely. intros E H [Hal Hsh].
  destruct c; simpl in E; try (injection E as <-; exact H).
  - injection E as <-. simpl. destruct b; [|reflexivity].
    now rewrite Hal.
  - injection E as <-. simpl. destruct b; [|apply andb_false_r].
    rewrite Hsh; reflexivity.
  - destruct api; [|discriminate]. injection E as <-.
    destruct url; exact H.
  - destruct api; [|discriminate]. injection E as <-.
    destruct url; exact H.
  - destruct api; [|discriminate]. injection E as <-. exact H.
  - discriminate.
Qed.

Lemma exec_steps_exit_guard (api : HistoryApi) (prog : list Stmt)
    (s : State) :
  exit_guard_ok s ->
  Forall sets_flag_safely (exec_steps api prog s) ->
  Forall (fun st => exit_guard_ok (snd st)) (exec_steps api prog s) /\
  exit_guard_ok (fst (exec api prog s)).
Proof.
  revert s; induction prog as [|c prog IH]; intros s H Hsafe; simpl in *.
  - split; [constructor | exact H].
  - destruct (exec1 api c s) as [s'|] eqn:E.
    + inversion Hsafe as [|st l Hst Hl]; subst.
      assert (H' : exit_guard_ok s')
        by (eapply exec1_exit_guard; eassumption).
      destruct (IH s' H' Hl) as [Hall Hfin].
      split; [constructor; [exact H' | exact Hall] | exact Hfin].
    + split; [constructor | exact H].
Qed.

Lemma exec_steps_stmt (api : HistoryApi) (prog : list Stmt) (s : State) :
  Forall (fun st => In (snd (fst st)) prog) (exec_steps api prog s).
Proof.
  revert s; induction prog as [|c prog IH]; intros s; simpl.
  - constructor.
  - destruct (exec1 api c s) as [s'|]; [|constructor].
    constructor; [now left|].
    eapply Forall_impl; [|apply IH]. intros st Hst. now right.
Qed.

Lemma quiet_steps_safe (api : HistoryApi) (prog : list Stmt) (s : State) :
  forallb (fun c => negb (raises c)) prog = true ->
  Forall sets_flag_safely (exec_steps api prog s).
Proof.
  intros Hq. rewrite forallb_forall in Hq.
  eapply Forall_impl; [|apply exec_steps_stmt].
  intros [[pre c] post] Hin. simpl in Hin. apply Hq in Hin.
  split; intros ->; discriminate.
Qed.

Lemma view_only_quiet (prog : list Stmt) :
  Forall view_only prog -> forallb (fun c => negb (raises c)) prog = true.
Proof.
  induction 1 as [|c prog Hc _ IH]; simpl; [reflexivity|].
  rewrite IH. destruct c; simpl in Hc; try contradiction; reflexivity.
Qed.

Lemma effect_only_quiet (prog : list Stmt) :
  Forall effect_only prog -> forallb (fun c => negb (raises c)) prog = true.
Proof.
  induction 1 as [|c prog Hc _ IH]; simpl; [reflexivity|].
  rewrite IH. destruct c; simpl in Hc; try contradiction; reflexivity.
Qed.

Ltac step_by_step :=
  repeat match goal with
    | |- Forall _ [] => constructor
    | |- Forall _ (_ :: _) => constructor
    | |- sets_flag_safely _ =>
        split; intros E; try discriminate E; cbn;
        try assumption; try reflexivity
    end.

Lemma handler_steps_safe (api : HistoryApi) (ev : Event) (s : State) :
  Forall sets_flag_safely (exec_steps api (Script.handle ev s) s).
Proof.
  destruct ev as [hash|navState|target| | |]; cbn [Script.handle].
  - unfold Script.handlePopState, Script.popStateUpdater.
    destruct (allowExitRef s) eqn:Ha; [now apply quiet_steps_safe|].
    destruct (exitConfirmationShownRef s) eqn:Hc;
      [now apply quiet_steps_safe|].
    cbv zeta. destruct (Nat.leb (List.length (navStack s)) 1).
    + destruct api; cbn; step_by_step.
    + destruct (last_entry (removelast (navStack s))) as [top|];
        [|now apply quiet_steps_safe].
      apply quiet_steps_safe. rewrite forallb_app.
      rewrite (view_only_quiet _ (restore_view_only top s)). reflexivity.
  - now apply quiet_steps_safe.
  - now apply quiet_steps_safe.
  - destruct api; cbn; step_by_step.
  - now apply quiet_steps_safe.
  - now apply quiet_steps_safe.
Qed.

Lemma react_steps_safe (api : HistoryApi) (ev : Event) (s : State) :
  Forall sets_flag_safely
    (react_steps Script.handle Script.effects api ev s).
Proof.
  unfold react_steps. cbv zeta. apply Forall_app. split.
  - apply handler_steps_safe.
  - destruct (snd (exec api _ _)); [|constructor].
    apply quiet_steps_safe, effect_only_quiet, effects_effect_only.
Qed.

Lemma instants_exit_guard (ev : Event) (s : State) :
  exit_guard_ok s ->
  Forall exit_guard_ok (instants Script.handle Script.effects Available ev s).
Proof.
  intros H. unfold instants.
  assert (H0 : exit_guard_ok (arrive ev s)) by (destruct ev; exact H).
  constructor; [exact H|]. constructor; [exact H0|].
  apply Forall_map. unfold react_steps. cbv zeta.
  destruct (exec_steps_exit_guard Available
              (Script.handle ev (arrive ev s)) (arrive ev s) H0
              (handler_steps_safe _ _ _)) as [Hall Hfin].
  apply Forall_app. split; [exact Hall|].
  destruct (snd (exec Available _ _)); [|constructor].
  apply exec_steps_exit_guard; [exact Hfin|].
  apply quiet_steps_safe, effect_only_quiet, effects_effect_only.
Qed.

(** C3.  At every instant at most one of [allowExitRef] and
    [exitConfirmationShownRef] is set: from page load, after any sequence
    of events, every state the component passes through while it processes
    one more event satisfies this.  Every executed statement that sets one
    of the two flags finds the other one clear, from whatever state the
    handler starts; in particular [handleExitConfirm] reaches its
    assignment of [allowExitRef] with [exitConfirmationShownRef] already
    cleared. *)
Theorem exit_guard_exclusive (loggedIn admin affiliate : bool)
    (user : option User) (catalogue : list ProductObj) (hash : string)
    (evs : list Event) (ev : Event) :
  Forall exit_guard_ok
    (instants Script.handle Script.effects Available ev
       (Script.trace evs
          (initial loggedIn admin affiliate user catalogue hash))) /\
  (forall (api : HistoryApi) (ev' : Event) (s : State),
     Forall sets_flag_safely
       (react_steps Script.handle Script.effects api ev' s)) /\
  (forall (api : HistoryApi) (s : State),
     exists pre post : State,
       In (pre, AssignAllowExitRef true, post)
          (exec_steps api (Script.handleExitConfirm s) s) /\
       exitConfirmationShownRef pre = false).
Proof.
  split; [|split].
  - apply instants_exit_guard, trace_exit_guard. reflexivity.
  - apply react_steps_safe.
  - intros api s.
    exists (set_showExitConfirmation false
              (set_exitConfirmationShownRef false s)).
    exists (set_allowExitRef true
              (set_showExitConfirmation false
                 (set_exitConfirmationShownRef false s))).
    split; [|reflexivity].
    destruct api; cbn; right; right; left; reflexivity.
Qed.

(** ** Stack length and physical pushes *)

Lemma step_count_le (ev : Event) (s : State) :
  List.length (navStack s) <= 1 + nav_pushes (historyCalls s) ->
  List.length (navStack (fst (Script.step Available ev s)))
    <= 1 + nav_pushes (historyCalls (fst (Script.step Available ev s))).
Proof.
  intros H. destruct (step_summary ev s) as [_ Hs].
  destruct ev as [hash|navState|target| | |]; cbn [summary] in Hs.
  - destruct Hs as [-> Hs].
    destruct (allowExitRef s); [destruct Hs as [-> _]; exact H|].
    destruct (exitConfirmationShownRef s);
      [destruct Hs as [-> _]; exact H|].
    destruct (Nat.leb (List.length (navStack s)) 1);
      destruct Hs as [-> _]; [exact H|].
    rewrite length_removelast_pred. lia.
  - destruct Hs as [-> [-> _]]. rewrite length_app. simpl. lia.
  - destruct Hs as [-> [-> _]]. rewrite length_app. simpl. lia.
  - destruct Hs as [-> [-> _]]. exact H.
  - destruct Hs as [-> [-> _]]. exact H.
  - destruct Hs as [-> [-> _]]. simpl. lia.
Qed.

(** ** Renders that trigger no effect *)

Lemma same_selection_refl (p : option ProductObj) : same_selection p p = true.
Proof.
  destruct p as [p|]; [|reflexivity]. unfold same_selection, ProductObj_eqb.
  now rewrite Z.eqb_refl, String.eqb_refl.
Qed.

Lemma effects_nil (before after : State) :
  isAdmin after = isAdmin before ->
  isAffiliate after = isAffiliate before ->
  selectedProduct after = selectedProduct before ->
  Script.effects before after = [].
Proof.
  intros Ha Hf Hp. unfold Script.effects.
  now rewrite Ha, Hf, Hp, !Bool.eqb_reflx, same_selection_refl.
Qed.

Lemma step_pushNavState (navState : NavEntry) (s : State) :
  Script.step Available (PushNavState navState) s =
  (set_historyCalls
     (historyCalls s ++ [CallPushState (Some navState) (Some "") LocationHref])
     (set_navStack (navStack s ++ [navState]) s), Normal).
Proof.
  unfold Script.step, react. cbn -[Script.effects].
  rewrite effects_nil by reflexivity. reflexivity.
Qed.

Lemma step_handleExitCancel (s : State) :
  Script.step Available ExitCancel s =
  (set_historyCalls (historyCalls s ++ [trap])
     (set_showExitConfirmation false
        (set_exitConfirmationShownRef false s)), Normal).
Proof.
  unfold Script.step, react. cbn -[Script.effects].
  rewrite effects_nil by reflexivity. reflexivity.
Qed.

(** An effect statement leaves the view hooks alone, whether or not
    [window.history] works. *)
Lemma exec_effect_only_view (api : HistoryApi) (prog : list Stmt)
    (s : State) :
  Forall effect_only prog ->
  selectedProduct (fst (exec api prog s)) = selectedProduct s /\
  activeTab (fst (exec api prog s)) = activeTab s /\
  showCMS (fst (exec api prog s)) = showCMS s.
Proof.
  intros H; revert s; induction H as [|c prog Hc _ IH]; intros s; simpl.
  - auto.
  - destruct c; simpl in Hc; try contradiction; simpl.
    + apply (IH (set_isAdminRef b s)).
    + apply (IH (set_isAffiliateRef b s)).
    + destruct state; [contradiction|]. destruct api; [|simpl; auto].
      destruct url;
        match goal with
        | |- context [exec _ prog ?t] => apply (IH t)
        end.
Qed.

(** ** The render's effects, run *)

(** In a render that changes neither [isAdmin] nor [isAffiliate] only the
    fragment effect can run, and it makes the push that is due. *)
Lemma exec_effects (api : HistoryApi) (before after : State) :
  isAdmin after = isAdmin before ->
  isAffiliate after = isAffiliate before ->
  exec api (Script.effects before after) after =
  match fragment_due before after with
  | None => (after, Normal)
  | Some u =>
      match api with
      | Available =>
          (history_pushState None None (UrlString u) after, Normal)
      | Unavailable => (after, Threw)
      end
  end.
Proof.
  intros Ha Hf. unfold Script.effects, fragment_due.
  rewrite Ha, Hf, !Bool.eqb_reflx. cbn [app].
  destruct (same_selection _ _); [reflexivity|].
  destruct (selectedProduct after); [destruct api; reflexivity|].
  destruct (String.prefix _ _); [destruct api; reflexivity | reflexivity].
Qed.


(** ** The back/forward handler, event by event *)

Lemma step_pop_path (hash : string) (s : State) (top : NavEntry) :
  allowExitRef s = false ->
  exitConfirmationShownRef s = false ->
  1 < List.length (navStack s) ->
  last_entry (removelast (navStack s)) = Some top ->
  Script.step Available (PopState hash) s =
  exec Available
    (Script.effects (set_locationHash hash s)
       (set_navStack (removelast (navStack s))
          (fst (exec Available
                  (Script.restore top (set_locationHash hash s))
                  (set_locationHash hash s)))))
    (set_navStack (removelast (navStack s))
       (fst (exec Available
               (Script.restore top (set_locationHash hash s))
               (set_locationHash hash s)))).
Proof.
  intros Ha Hc Hlen Htop. unfold Script.step, react. cbv zeta.
  cbn [arrive Script.handle].
  rewrite (handlePopState_pop (set_locationHash hash s) top Ha Hc Hlen Htop).
  reflexivity.
Qed.

Lemma two_on_top (rest : list NavEntry) (a e : NavEntry) :
  1 < List.length (rest ++ [a; e]) /\
  removelast (rest ++ [a; e]) = rest ++ [a] /\
  last_entry (removelast (rest ++ [a; e])) = Some a.
Proof.
  split; [rewrite length_app; simpl; lia|].
  rewrite removelast_two. split; [reflexivity | apply last_entry_snoc].
Qed.

Ltac effects_by_cases :=
  unfold Script.effects;
  cbn [isAdmin isAffiliate selectedProduct locationHash
       set_navStack set_showCMS set_selectedProduct set_activeTab
       set_affiliateActiveTab set_locationHash];
  rewrite !Bool.eqb_reflx;
  repeat match goal with
    | |- context [same_selection ?a ?b] => destruct (same_selection a b)
    | |- context [String.prefix ?a ?b] => destruct (String.prefix a b)
    end.

(** C1, as the code has it.  A back/forward notification is decided in a
    fixed order, and the whole event (the browser's move, the handler, the
    effects of the render that follows) leaves the state given here.  With
    [allowExitRef] set the ref is cleared and nothing else happens.
    Otherwise, with [exitConfirmationShownRef] set, the ref is cleared, the
    dialog hidden and one trap pushed; the stack is as before.  Otherwise,
    with a stack of length at most 1, the ref is set, the dialog shown and
    one trap pushed; the stack is as before.  Otherwise exactly the last
    entry is removed and the view of the entry now on top is restored:
    [Home] and [Tab] select their tab, clear the product and close the CMS
    ([Home] also resets the affiliate tab of an affiliate), [Product]
    selects the product found in the catalogue or falls back to the home
    tab with no product, [Cms] opens the CMS for an administrator,
    [AffiliateTab] selects the tab of an affiliate.  The handler makes no
    call on [window.history] on this path, but the render that follows
    runs the fragment effect, which makes the one push that is due when
    the restoration has changed the selected product. *)
Theorem handlePopState_priority (hash : string) (s : State) :
  let s0 := set_locationHash hash s in
  let r := Script.step Available (PopState hash) s in
  (allowExitRef s = true ->
     r = (set_allowExitRef false s0, Normal)) /\
  (allowExitRef s = false -> exitConfirmationShownRef s = true ->
     r = (set_historyCalls (historyCalls s ++ [trap])
            (set_showExitConfirmation false
               (set_exitConfirmationShownRef false s0)), Normal)) /\
  (allowExitRef s = false -> exitConfirmationShownRef s = false ->
   List.length (navStack s) <= 1 ->
     r = (set_historyCalls (historyCalls s ++ [trap])
            (set_showExitConfirmation true
               (set_exitConfirmationShownRef true s0)), Normal)) /\
  (allowExitRef s = false -> exitConfirmationShownRef s = false ->
   1 < List.length (navStack s) ->
     exists top : NavEntry,
       last_entry (removelast (navStack s)) = Some top /\
       let view :=
         match top with
         | Home =>
             let v := set_showCMS false
                        (set_selectedProduct None
                           (set_activeTab "home" s0)) in
             if isAffiliateRef s then set_affiliateActiveTab "home" v
             else v
         | Tab value =>
             set_showCMS false
               (set_selectedProduct None (set_activeTab value s0))
         | Product i =>
             match find_product i (productsRef s) with
             | Some product => set_selectedProduct (Some product) s0
             | None => set_activeTab "home" (set_selectedProduct None s0)
             end
         | Cms => if isAdminRef s then set_showCMS true s0 else s0
         | AffiliateTab tab =>
             if isAffiliateRef s then set_affiliateActiveTab tab s0
             else s0
         end in
       let popped := set_navStack (removelast (navStack s)) view in
       r = (match fragment_due s0 popped with
            | Some u => history_pushState None None (UrlString u) popped
            | None => popped
            end, Normal) /\
       List.length (navStack (fst r)) = List.length (navStack s) - 1).
Proof.
  cbv zeta. split; [|split; [|split]].
  - intros Ha. unfold Script.step, react. cbv zeta.
    cbn [arrive Script.handle]. unfold Script.handlePopState.
    cbn [allowExitRef set_locationHash]. rewrite Ha.
    cbn -[Script.effects]. rewrite effects_nil by reflexivity. reflexivity.
  - intros Ha Hc. unfold Script.step, react. cbv zeta.
    cbn [arrive Script.handle]. unfold Script.handlePopState.
    cbn [allowExitRef exitConfirmationShownRef set_locationHash].
    rewrite Ha, Hc.
    cbn -[Script.effects]. rewrite effects_nil by reflexivity. reflexivity.
  - intros Ha Hc Hlen. unfold Script.step, react. cbv zeta.
    cbn [arrive Script.handle].
    unfold Script.handlePopState, Script.popStateUpdater.
    cbn [allowExitRef exitConfirmationShownRef navStack set_locationHash].
    rewrite Ha, Hc. cbv zeta.
    destruct (Nat.leb_spec (List.length (navStack s)) 1) as [_|Hgt]; [|lia].
    cbn -[Script.effects]. rewrite effects_nil by reflexivity. reflexivity.
  - intros Ha Hc Hlen.
    destruct (last_entry_removelast (navStack s) Hlen) as [top Htop].
    exists top. split; [exact Htop|].
    rewrite (step_pop_path hash s top Ha Hc Hlen Htop).
    destruct top as [|value|i| |tab];
      cbn [Script.restore isAffiliateRef isAdminRef productsRef
           set_locationHash];
      [destruct (isAffiliateRef s)
      |
      |destruct (find_product i (productsRef s))
      |destruct (isAdminRef s)
      |destruct (isAffiliateRef s)];
      cbn [exec exec1 fst app];
      rewrite exec_effects by reflexivity;
      match goal with
      | |- context [fragment_due ?a ?b] => destruct (fragment_due a b)
      end;
      (split; [reflexivity|]);
      cbn [fst navStack history_pushState set_historyCalls set_locationHash
           set_navStack];
      apply length_removelast_pred.
Qed.

(** Each of the four paths, on a state that takes it; on the last one the
    fragment effect pushes the fragment of the product popped to. *)
Lemma handlePopState_priority_witness :
  Script.step Available (PopState "") exit_armed =
    (set_allowExitRef false (set_locationHash "" exit_armed), Normal) /\
  Script.step Available (PopState "") dialog_open =
    (set_historyCalls (historyCalls dialog_open ++ [trap])
       (set_showExitConfirmation false
          (set_exitConfirmationShownRef false
             (set_locationHash "" dialog_open))), Normal) /\
  Script.step Available (PopState "") at_load =
    (set_historyCalls (historyCalls at_load ++ [trap])
       (set_showExitConfirmation true
          (set_exitConfirmationShownRef true
             (set_locationHash "" at_load))), Normal) /\
  historyCalls (fst (Script.step Available (PopState "") live_product)) =
    historyCalls live_product ++
    [CallPushState None None (UrlString "#product-2")].
Proof.
  split; [|split; [|split]].
  - apply (proj1 (handlePopState_priority "" exit_armed)). reflexivity.
  - apply (proj1 (proj2 (handlePopState_priority "" dialog_open)));
      reflexivity.
  - apply (proj1 (proj2 (proj2 (handlePopState_priority "" at_load))));
      [reflexivity | reflexivity | simpl; lia].
  - destruct (proj2 (proj2 (proj2
               (handlePopState_priority "" live_product))))
      as [top [Htop [Hr _]]]; [reflexivity | reflexivity | simpl; lia |].
    vm_compute in Htop. injection Htop as <-.
    rewrite Hr. reflexivity.
Defined.

(** C1, as the specification words it, fails: a back notification that
    pops to a product of the catalogue removes one entry, and a physical
    push is made in the same event, by the fragment effect. *)
Lemma pops_without_push_fails : ~ pops_without_push "" live_product.
Proof.
  unfold pops_without_push. vm_compute. intros [_ H]. discriminate H.
Qed.

(** ** The ledger of a run *)











(** ** Pushing a stack entry *)

(** C9.  In every state, whatever the two exit flags are, [pushNavState]
    appends exactly the given entry to the stack and makes exactly one
    call on [window.history], a push carrying that entry; nothing else
    changes: the two exit flags, the dialog, the active tab, the selected
    product and the CMS flag are as before. *)
Theorem pushNavState_frame (navState : NavEntry) (s : State) :
  let r := Script.step Available (PushNavState navState) s in
  r = (set_historyCalls
         (historyCalls s ++
          [CallPushState (Some navState) (Some "") LocationHref])
         (set_navStack (navStack s ++ [navState]) s), Normal) /\
  navStack (fst r) = navStack s ++ [navState] /\
  historyCalls (fst r) =
    historyCalls s ++ [CallPushState (Some navState) (Some "") LocationHref] /\
  allowExitRef (fst r) = allowExitRef s /\
  exitConfirmationShownRef (fst r) = exitConfirmationShownRef s /\
  showExitConfirmation (fst r) = showExitConfirmation s /\
  activeTab (fst r) = activeTab s /\
  selectedProduct (fst r) = selectedProduct s /\
  showCMS (fst r) = showCMS s.
Proof.
  cbv zeta. rewrite step_pushNavState. repeat split.
Qed.

(** ** Logout *)

(** C4, as the code has it.  In every state logout completes and resets
    the stack to exactly [[Home]]; it writes neither exit flag and does
    not touch the dialog, so after logout the controller is idle exactly
    when it was idle before. *)
Theorem logout_resets_stack_only (s : State) :
  let r := Script.step Available Logout s in
  snd r = Normal /\
  navStack (fst r) = [Home] /\
  allowExitRef (fst r) = allowExitRef s /\
  exitConfirmationShownRef (fst r) = exitConfirmationShownRef s /\
  showExitConfirmation (fst r) = showExitConfirmation s /\
  guard_idle (fst r) = guard_idle s.
Proof.
  cbv zeta.
  destruct (step_summary Logout s) as [Hn [_ [Hst [Hal Hsh]]]].
  destruct (step_after_handler Logout s eq_refl) as [_ [_ _ _ Hdi _]].
  split; [exact Hn|]. split; [exact Hst|]. split; [exact Hal|].
  split; [exact Hsh|]. split; [exact Hdi|].
  unfold guard_idle. now rewrite Hal, Hsh.
Qed.

(** C4, as the specification words it, fails: logout while the dialog is
    open leaves [exitConfirmationShownRef] set and the dialog visible. *)
Lemma logout_returns_to_idle_fails : ~ logout_returns_to_idle dialog_open.
Proof.
  unfold logout_returns_to_idle, idle. vm_compute.
  intros [_ [H _]]. discriminate H.
Qed.

(** ** Cancelling the exit dialog *)

(** C8, as the code has it.  Two calls of [handleExitCancel] in a row
    leave every hook and ref as one call leaves them, the stack and both
    exit flags included; the handler does not test
    [exitConfirmationShownRef], so each call makes one trap push and the
    pair makes two. *)
Theorem cancelExit_twice (s : State) :
  let once := Script.trace [ExitCancel] s in
  let twice := Script.trace [ExitCancel; ExitCancel] s in
  twice = set_historyCalls (historyCalls once ++ [trap]) once /\
  historyCalls once = historyCalls s ++ [trap] /\
  historyCalls twice = historyCalls s ++ [trap; trap] /\
  navStack twice = navStack once /\
  allowExitRef twice = allowExitRef once /\
  exitConfirmationShownRef twice = false /\
  exitConfirmationShownRef once = false /\
  showExitConfirmation twice = showExitConfirmation once.
Proof.
  cbv zeta. unfold Script.trace. cbn [run].
  change (react Script.handle Script.effects) with Script.step.
  rewrite !step_handleExitCancel. cbn [fst].
  repeat split. cbn. now rewrite <- app_assoc.
Qed.

(** C8, as the specification words it, fails: from the open dialog the
    second call makes a second trap push, so the history differs from
    that after one call. *)
Lemma cancel_twice_as_once_fails : ~ cancel_twice_as_once dialog_open.
Proof.
  unfold cancel_twice_as_once. vm_compute.
  intros [_ H]. discriminate H.
Qed.

(** ** Restoring a product entry *)

Lemma find_product_some (i : Z) (l : list ProductObj) (p : ProductObj) :
  find_product i l = Some p -> id p = i /\ In p l.
Proof.
  unfold find_product. intros H. apply find_some in H.
  destruct H as [Hin He]. split; [now apply Z.eqb_eq | exact Hin].
Qed.

(** C7.  A back notification that pops to a [Product i] entry completes
    without a throw and leaves that entry on top.  If [i] is not the id of
    any product in [productsRef], the product view is cleared and the home
    tab is selected; if it is, the first product with that id becomes the
    selected product.  The handler itself does not throw even when
    [window.history] is unavailable. *)
Theorem popstate_restores_product (hash : string) (s : State)
    (rest : list NavEntry) (i : Z) (e : NavEntry) :
  allowExitRef s = false ->
  exitConfirmationShownRef s = false ->
  navStack s = rest ++ [Product i; e] ->
  let r := Script.step Available (PopState hash) s in
  snd r = Normal /\
  navStack (fst r) = rest ++ [Product i] /\
  (forall api : HistoryApi,
     snd (exec api (Script.handlePopState (arrive (PopState hash) s))
            (arrive (PopState hash) s)) = Normal) /\
  match find_product i (productsRef s) with
  | Some p =>
      selectedProduct (fst r) = Some p /\ id p = i /\ In p (productsRef s)
  | None =>
      selectedProduct (fst r) = None /\ activeTab (fst r) = "home"
  end.
Proof.
  intros Ha Hc Hst. cbv zeta.
  set (s0 := arrive (PopState hash) s).
  assert (Hlen : 1 < List.length (navStack s0)).
  { cbn. rewrite Hst, length_app. simpl. lia. }
  assert (Htop : last_entry (removelast (navStack s0)) = Some (Product i)).
  { cbn. rewrite Hst, removelast_two. apply last_entry_snoc. }
  pose proof (handlePopState_pop s0 (Product i) Ha Hc Hlen Htop) as Hpop.
  destruct (step_summary (PopState hash) s) as [Hn [_ Hs]].
  rewrite Ha, Hc in Hs.
  destruct (Nat.leb_spec (List.length (navStack s)) 1) as [Hle|_];
    [cbn in Hlen; lia|].
  destruct Hs as [Hst' _].
  split; [exact Hn|]. split; [now rewrite Hst', Hst, removelast_two|].
  split; [intros api; now rewrite Hpop|].
  unfold Script.step, react. cbv zeta. fold s0. cbn [Script.handle].
  rewrite (Hpop Available).
  cbn [fst snd].
  match goal with
  | |- context [exec Available (Script.effects s0 ?t) ?t] =>
      destruct (exec_effect_only_view Available (Script.effects s0 t) t
                  (effects_effect_only s0 t)) as [Hsel [Htab _]]
  end.
  unfold Script.restore in *. cbn [productsRef s0 arrive set_locationHash] in *.
  destruct (find_product i (productsRef s)) as [p|] eqn:E.
  - rewrite Hsel. split; [reflexivity|]. now apply find_product_some.
  - rewrite Hsel, Htab. split; reflexivity.
Qed.

(** A stale product entry and a live one. *)
Lemma popstate_restores_product_witness :
  (selectedProduct (fst (Script.step Available (PopState "") stale_product))
     = None /\
   activeTab (fst (Script.step Available (PopState "") stale_product))
     = "home") /\
  selectedProduct (fst (Script.step Available (PopState "") live_product))
    = Some (mkProduct 2 "Smart Fitness Watch Pro").
Proof.
  split.
  - exact (proj2 (proj2 (proj2
      (popstate_restores_product "" stale_product [Home] 7 (Tab "cart")
         eq_refl eq_refl eq_refl)))).
  - exact (proj1 (proj2 (proj2 (proj2
      (popstate_restores_product "" live_product [Home] 2 (Tab "cart")
         eq_refl eq_refl eq_refl))))).
Defined.

(** ** A failing [window.history] *)

(** The statements of a handler are those it runs itself followed by
    those of the updater it queues. *)
Lemma handle_split (ev : Event) (s : State) :
  Script.handle ev s = Script.listener ev s ++ Script.queued ev s.
Proof.
  destruct ev; cbn [Script.handle Script.listener Script.queued];
    try (now rewrite app_nil_r).
  unfold Script.handlePopState.
  destruct (allowExitRef s); [reflexivity|].
  destruct (exitConfirmationShownRef s); reflexivity.
Qed.

(** View statements make no call on [window.history]: they run the same
    whether or not it works. *)
Lemma exec_view_only_api (api : HistoryApi) (prog : list Stmt) (s : State) :
  Forall view_only prog -> exec api prog s = exec Available prog s.
Proof.
  intros H; revert s; induction H as [|c prog Hc _ IH]; intros s;
    [reflexivity|].
  destruct c; simpl in Hc; try contradiction; simpl; apply IH.
Qed.

Lemma fate_available (ev : Event) (s : State) :
  Script.fate Available ev s = Completed.
Proof.
  unfold Script.fate, surfaces. cbv zeta.
  destruct (handler_summary ev s) as [Hn _]. cbv zeta in Hn.
  rewrite handle_split, exec_app in Hn.
  destruct (snd (exec Available (Script.listener ev (arrive ev s))
                   (arrive ev s))) eqn:E; [|congruence].
  rewrite Hn.
  now rewrite (proj1 (exec_effect_only _ _ (effects_effect_only _ _))).
Qed.

Lemma fate_popState (hash : string) (s : State) :
  Script.fate Unavailable (PopState hash) s =
  if allowExitRef s then Completed
  else if exitConfirmationShownRef s then LeftHandler
  else if Nat.leb (List.length (navStack s)) 1 then Unmounted
  else match reselects (PopState hash) s with
       | 0 => Completed
       | S _ => Unmounted
       end.
Proof.
  unfold Script.fate, surfaces. cbv zeta.
  cbn [arrive Script.listener Script.queued allowExitRef
       exitConfirmationShownRef set_locationHash].
  destruct (allowExitRef s) eqn:Ha.
  { unfold Script.handlePopState. cbn [allowExitRef set_locationHash].
    rewrite Ha. cbn -[Script.effects].
    now rewrite effects_nil by reflexivity. }
  destruct (exitConfirmationShownRef s) eqn:Hc.
  { unfold Script.handlePopState.
    cbn [allowExitRef exitConfirmationShownRef set_locationHash].
    rewrite Ha, Hc. cbn -[Script.effects].
    now rewrite effects_nil by reflexivity. }
  cbn [orb exec fst snd].
  destruct (Nat.leb_spec (List.length (navStack s)) 1) as [Hle|Hgt].
  { unfold Script.popStateUpdater. cbn [navStack set_locationHash].
    cbv zeta.
    destruct (Nat.leb_spec (List.length (navStack s)) 1) as [_|Hgt];
      [reflexivity | lia]. }
  destruct (last_entry_removelast (navStack s) Hgt) as [top Htop].
  assert (Hq : Script.popStateUpdater (set_locationHash hash s)
               = Script.handlePopState (set_locationHash hash s)).
  { unfold Script.handlePopState.
    cbn [allowExitRef exitConfirmationShownRef set_locationHash].
    now rewrite Ha, Hc. }
  rewrite Hq.
  unfold reselects, rendered. cbn [arrive Script.handle].
  rewrite !(handlePopState_pop (set_locationHash hash s) top Ha Hc Hgt Htop).
  rewrite (exec_view_only_api Unavailable _ _
             (restore_view_only top (set_locationHash hash s))).
  destruct (exec_view_only Available _ (set_locationHash hash s)
              (restore_view_only top (set_locationHash hash s)))
    as [_ [_ _ _ _ _ _ Had Haf]].
  cbn [fst snd]. rewrite exec_effects by (cbn; assumption).
  now destruct (fragment_due _ _).
Qed.

(** C6, as the code has it.  No history call is guarded.  While
    [window.history] works every event completes.  When every call on it
    throws: [pushNavState], [handleExitConfirm] and [handleExitCancel]
    let the exception leave uncaught, with what they wrote before the
    call kept, so the stack still has the entry [pushNavState] appended;
    [navigateTo] does the same, and the component is unmounted when its
    render then owes a fragment push; logout completes.  Of the
    back/forward listener, the exit-armed path completes and the
    implicit-cancel path lets the exception leave the listener with the
    ref cleared and the dialog hidden; on the other two paths the
    listener itself runs nothing that can throw and returns, for their
    statements are those of the updater it queues: at the floor the trap
    push throws inside the updater, after the ref is set, and the
    component is unmounted; on the pop path the updater completes and the
    component is unmounted when the render owes a fragment push.  At
    mount, [replaceState] throws inside the effect that registers the
    listener when [window.history.state] is empty. *)
Theorem history_failure_propagates (navState : NavEntry) (s : State) :
  (forall ev : Event,
     Script.handle ev s = Script.listener ev s ++ Script.queued ev s) /\
  (forall ev : Event,
     Script.fate Available ev s = Completed /\
     snd (Script.step Available ev s) = Normal) /\
  exec Unavailable (Script.pushNavState navState s) s =
    (set_navStack (navStack s ++ [navState]) s, Threw) /\
  exec Unavailable (Script.handleExitConfirm s) s =
    (set_allowExitRef true
       (set_showExitConfirmation false
          (set_exitConfirmationShownRef false s)), Threw) /\
  exec Unavailable (Script.handleExitCancel s) s =
    (set_showExitConfirmation false
       (set_exitConfirmationShownRef false s), Threw) /\
  (forall ev : Event,
     Script.fate Unavailable ev s =
     match ev with
     | PopState hash =>
         if allowExitRef s then Completed
         else if exitConfirmationShownRef s then LeftHandler
         else if Nat.leb (List.length (navStack s)) 1 then Unmounted
         else match reselects ev s with
              | 0 => Completed
              | S _ => Unmounted
              end
     | PushNavState _ | ExitConfirm | ExitCancel => LeftHandler
     | NavigateTo _ =>
         match fragment_due s (set_selectedProduct None s) with
         | None => LeftHandler
         | Some _ => Unmounted
         end
     | Logout => Completed
     end) /\
  (forall hash : string,
     exec Unavailable (Script.listener (PopState hash) s) s =
     if allowExitRef s then (set_allowExitRef false s, Normal)
     else if exitConfirmationShownRef s then
       (set_showExitConfirmation false
          (set_exitConfirmationShownRef false s), Threw)
     else (s, Normal)) /\
  (forall hash : string,
     exec Unavailable (Script.queued (PopState hash) s) s =
     if allowExitRef s then (s, Normal)
     else if exitConfirmationShownRef s then (s, Normal)
     else if Nat.leb (List.length (navStack s)) 1 then
       (set_showExitConfirmation true
          (set_exitConfirmationShownRef true s), Threw)
     else
       (fst (exec Available (Script.queued (PopState hash) s) s), Normal)) /\
  exec Available (Script.mountEffect None) s =
    (set_historyCalls
       (historyCalls s ++
        [CallReplaceState (Some Home) (Some "") LocationHref]) s, Normal) /\
  exec Unavailable (Script.mountEffect None) s = (s, Threw).
Proof.
  split; [intros ev; apply handle_split|].
  split; [intros ev; split; [apply fate_available | apply step_summary]|].
  split; [reflexivity|]. split; [reflexivity|]. split; [reflexivity|].
  split.
  { intros [hash|e|target| | |].
    - apply fate_popState.
    - unfold Script.fate, surfaces. cbn -[Script.effects].
      now rewrite effects_nil by reflexivity.
    - unfold Script.fate, surfaces. cbn -[Script.effects fragment_due].
      rewrite exec_effects by reflexivity.
      unfold fragment_due.
      cbn [selectedProduct locationHash set_navStack set_selectedProduct
           set_activeTab].
      now destruct (same_selection (selectedProduct s) None);
        [|destruct (String.prefix "#product-" (locationHash s))].
    - unfold Script.fate, surfaces. cbn -[Script.effects].
      now rewrite effects_nil by reflexivity.
    - unfold Script.fate, surfaces. cbn -[Script.effects].
      now rewrite effects_nil by reflexivity.
    - unfold Script.fate, surfaces. cbn -[Script.effects].
      unfold Script.effects.
      cbn [isAdmin isAffiliate selectedProduct set_modal set_navStack
           set_affiliateActiveTab set_activeTab set_showCMS set_currentUser
           set_isAffiliate set_isAdmin set_isLoggedIn].
      rewrite same_selection_refl.
      now destruct (Bool.eqb (isAdmin s) false),
                   (Bool.eqb (isAffiliate s) false). }
  split.
  { intros hash. cbn [Script.listener]. unfold Script.handlePopState.
    destruct (allowExitRef s); [reflexivity|].
    destruct (exitConfirmationShownRef s); reflexivity. }
  split.
  { intros hash. cbn [Script.queued].
    destruct (allowExitRef s) eqn:Ha; [reflexivity|].
    destruct (exitConfirmationShownRef s) eqn:Hc; [reflexivity|].
    cbn [orb].
    destruct (Nat.leb_spec (List.length (navStack s)) 1) as [Hle|Hgt].
    { unfold Script.popStateUpdater. cbv zeta.
      destruct (Nat.leb_spec (List.length (navStack s)) 1) as [_|Hgt];
        [reflexivity | lia]. }
    destruct (last_entry_removelast (navStack s) Hgt) as [top Htop].
    assert (Hq : Script.popStateUpdater s = Script.handlePopState s)
      by (unfold Script.handlePopState; now rewrite Ha, Hc).
    rewrite Hq, !(handlePopState_pop s top Ha Hc Hgt Htop).
    now rewrite (exec_view_only_api Unavailable _ _
                   (restore_view_only top s)). }
  split; reflexivity.
Qed.

(** C6, as the specification words it, fails: with [window.history]
    unavailable [pushNavState] throws. *)
Lemma degrades_to_noop_fails : ~ degrades_to_noop Cms at_load.
Proof.
  unfold degrades_to_noop. vm_compute. intros [H _]. discriminate H.
Qed.

(** ** The two variants *)

Lemma restore_agree (prevState : NavEntry) (s : State) :
  Script.restore prevState s = Part000.restore prevState s.
Proof. destruct prevState; reflexivity. Qed.

Lemma handlePopState_agree (s : State) :
  Script.handlePopState s = Part000.handlePopState s.
Proof.
  unfold Script.handlePopState, Part000.handlePopState,
    Script.popStateUpdater, Part000.popStateUpdater.
  destruct (allowExitRef s); [reflexivity|].
  destruct (exitConfirmationShownRef s); [reflexivity|]. cbv zeta.
  destruct (Nat.leb _ 1); [reflexivity|].
  destruct (last_entry _) as [top|]; [|reflexivity].
  now rewrite restore_agree.
Qed.

Lemma handle_agree (ev : Event) (s : State) :
  Script.handle ev s = Part000.handle ev s.
Proof.
  destruct ev; cbn [Script.handle Part000.handle];
    [apply handlePopState_agree | reflexivity ..].
Qed.

Lemma effects_agree (before after : State) :
  Script.effects before after = Part000.effects before after.
Proof. reflexivity. Qed.

Lemma step_agree (api : HistoryApi) (ev : Event) (s : State) :
  Script.step api ev s = Part000.step api ev s.
Proof.
  unfold Script.step, Part000.step, react. cbv zeta.
  rewrite handle_agree.
  destruct (snd (exec api _ _)); [|reflexivity].
  now rewrite effects_agree.
Qed.

(** C10.  The two variants agree: on every event in every state, with or
    without a working [window.history], they reach the same state (the
    stack and both exit flags included) with the same outcome; they issue
    the same restoration statements for every entry; and so they reach the
    same state after every sequence of events. *)
Theorem variants_agree :
  (forall (api : HistoryApi) (ev : Event) (s : State),
     Script.step api ev s = Part000.step api ev s) /\
  (forall (prevState : NavEntry) (s : State),
     Script.restore prevState s = Part000.restore prevState s) /\
  (forall (ev : Event) (s : State),
     Script.handle ev s = Part000.handle ev s) /\
  (forall (evs : list Event) (s : State),
     Script.trace evs s = Part000.trace evs s).
Proof.
  split; [exact step_agree|]. split; [exact restore_agree|].
  split; [exact handle_agree|].
  intros evs. induction evs as [|ev evs IH]; intros s.
  - reflexivity.
  - unfold Script.trace, Part000.trace in *. cbn [run].
    change (react Script.handle Script.effects) with Script.step.
    change (react Part000.handle Part000.effects) with Part000.step.
    rewrite step_agree. apply IH.
Qed.

(** * Further properties of the navigation code *)

(** ** Sequences of pushes and back notifications *)

Lemma trace_app (evs evs' : list Event) (s : State) :
  Script.trace (evs ++ evs') s = Script.trace evs' (Script.trace evs s).
Proof.
  revert s; induction evs as [|ev evs IH]; intros s; [reflexivity|].
  simpl. apply IH.
Qed.

Lemma trace_pushes (es : list NavEntry) (s : State) :
  navStack (Script.trace (map PushNavState es) s) = navStack s ++ es /\
  allowExitRef (Script.trace (map PushNavState es) s) = allowExitRef s /\
  exitConfirmationShownRef (Script.trace (map PushNavState es) s)
    = exitConfirmationShownRef s.
Proof.
  revert s; induction es as [|e es IH]; intros s; simpl.
  - now rewrite app_nil_r.
  - change (react Script.handle Script.effects) with Script.step.
    rewrite step_pushNavState. cbn [fst].
    destruct (IH (set_historyCalls
                    (historyCalls s ++
                     [CallPushState (Some e) (Some "") LocationHref])
                    (set_navStack (navStack s ++ [e]) s)))
      as [Hst [Hal Hsh]].
    rewrite Hst, Hal, Hsh. cbn. now rewrite <- app_assoc.
Qed.

Lemma step_pop_stack (hash : string) (s : State) :
  guard_idle s = true -> 1 < List.length (navStack s) ->
  navStack (fst (Script.step Available (PopState hash) s))
    = removelast (navStack s) /\
  guard_idle (fst (Script.step Available (PopState hash) s)) = true.
Proof.
  unfold guard_idle. intros Hi Hlen.
  apply negb_true_iff, orb_false_iff in Hi. destruct Hi as [Ha Hc].
  destruct (step_summary (PopState hash) s) as [_ [_ Hs]].
  rewrite Ha, Hc in Hs.
  destruct (Nat.leb_spec (List.length (navStack s)) 1) as [Hle|_]; [lia|].
  destruct Hs as [-> [-> ->]]. split; reflexivity.
Qed.

Lemma trace_pops (hs : list string) :
  forall (es base : list NavEntry) (s : State),
    guard_idle s = true -> base <> [] ->
    navStack s = base ++ es -> List.length hs = List.length es ->
    navStack (Script.trace (map PopState hs) s) = base /\
    guard_idle (Script.trace (map PopState hs) s) = true.
Proof.
  induction hs as [|h hs IH]; intros es base s Hi Hb Hst Hlen.
  - destruct es; [|discriminate]. rewrite app_nil_r in Hst. now split.
  - destruct (exists_last (l := es)) as [es' [e ->]];
      [intros ->; discriminate|].
    rewrite length_app in Hlen. simpl in Hlen.
    assert (Hgt : 1 < List.length (navStack s)).
    { rewrite Hst, !length_app. simpl.
      destruct base; [contradiction | simpl; lia]. }
    destruct (step_pop_stack h s Hi Hgt) as [Hst' Hi'].
    simpl. change (react Script.handle Script.effects) with Script.step.
    apply (IH es' base); [exact Hi' | exact Hb | | lia].
    rewrite Hst', Hst, app_assoc. apply removelast_last.
Qed.

(** X1.  From a state with both exit flags clear and a non-empty stack,
    any number of pushes followed by the same number of back
    notifications leaves the stack exactly as it was, with both flags
    clear again. *)
Theorem pushes_then_backs_round_trip (s : State) (es : list NavEntry)
    (hs : list string) :
  guard_idle s = true ->
  navStack s <> [] ->
  List.length hs = List.length es ->
  let s' := Script.trace (map PushNavState es ++ map PopState hs) s in
  navStack s' = navStack s /\ guard_idle s' = true.
Proof.
  intros Hi Hne Hlen. cbv zeta. rewrite trace_app.
  destruct (trace_pushes es s) as [Hst [Hal Hsh]].
  apply (trace_pops hs es (navStack s)); try assumption.
  unfold guard_idle in *. now rewrite Hal, Hsh.
Qed.

Lemma pushes_then_backs_round_trip_witness :
  navStack
    (Script.trace
       (map PushNavState [Tab "cart"; Product 2; Cms] ++
        map PopState [""; "#product-2"; ""]) at_load)
    = navStack at_load.
Proof.
  apply (pushes_then_backs_round_trip at_load
           [Tab "cart"; Product 2; Cms] [""; "#product-2"; ""]).
  - reflexivity.
  - discriminate.
  - reflexivity.
Defined.

(** ** The exit dialog *)

(** X2.  A back notification that arrives while the dialog is open does
    exactly what the No button does: the two reach the same state with the
    same outcome, the location apart, which the browser moved before the
    notification. *)
Theorem back_with_dialog_open_is_cancel (api : HistoryApi) (hash : string)
    (s : State) :
  allowExitRef s = false ->
  exitConfirmationShownRef s = true ->
  Script.step api (PopState hash) s =
  Script.step api ExitCancel (set_locationHash hash s).
Proof.
  intros Ha Hc. unfold Script.step, react. cbv zeta.
  cbn [arrive Script.handle].
  unfold Script.handlePopState, Script.popStateUpdater.
  cbn [allowExitRef exitConfirmationShownRef set_locationHash].
  rewrite Ha, Hc. reflexivity.
Qed.

Lemma back_with_dialog_open_is_cancel_witness :
  Script.step Available (PopState "") dialog_open =
  Script.step Available ExitCancel (set_locationHash "" dialog_open).
Proof.
  apply (back_with_dialog_open_is_cancel Available "" dialog_open);
    reflexivity.
Defined.

(** X3.  Yes in the dialog followed by the back notification it triggers:
    whatever the state and the stack depth, the pair clears both exit
    flags, hides the dialog and records one [history.back()]; the stack,
    the view and everything else are as before (the location is where the
    browser moved). *)
Theorem confirmed_exit_is_consumed (hash : string) (s : State) :
  Script.trace [ExitConfirm; PopState hash] s =
  set_locationHash hash
    (set_historyCalls (historyCalls s ++ [CallBack])
       (set_allowExitRef false
          (set_showExitConfirmation false
             (set_exitConfirmationShownRef false s)))).
Proof.
  unfold Script.trace. cbn [run].
  unfold react. cbv zeta. cbn [arrive Script.handle].
  cbn -[Script.effects Script.handlePopState].
  rewrite effects_nil by reflexivity.
  cbn -[Script.effects Script.handlePopState].
  unfold Script.handlePopState, Script.popStateUpdater. cbn -[Script.effects].
  rewrite effects_nil by reflexivity. reflexivity.
Qed.

(** ** What a back notification shows *)

(** X4.  A back notification that pops to a [Tab a] entry selects tab [a],
    clears the product view and closes the CMS, so the page shows what it
    shows for tab [a] with no product and no CMS. *)
Theorem back_restores_tab_below (hash : string) (s : State)
    (rest : list NavEntry) (a : string) (e : NavEntry) :
  allowExitRef s = false ->
  exitConfirmationShownRef s = false ->
  navStack s = rest ++ [Tab a; e] ->
  let r := fst (Script.step Available (PopState hash) s) in
  navStack r = rest ++ [Tab a] /\
  activeTab r = a /\ selectedProduct r = None /\ showCMS r = false /\
  ScriptUi.renderMain r =
    ScriptUi.renderMain
      (set_activeTab a (set_selectedProduct None (set_showCMS false s))).
Proof.
  intros Ha Hc Hst. cbv zeta.
  destruct (two_on_top rest (Tab a) e) as [Hlen [Hrm Htop]].
  rewrite <- Hst in Hlen, Htop.
  rewrite (step_pop_path hash s (Tab a) Ha Hc Hlen Htop).
  rewrite Hst, Hrm. cbn [Script.restore exec exec1 fst].
  effects_by_cases; cbn; repeat split; reflexivity.
Qed.

Lemma back_restores_tab_below_witness :
  activeTab
    (fst (Script.step Available (PopState "")
            (Script.trace [NavigateTo "cart"; NavigateTo "account"] at_load)))
    = "cart".
Proof.
  exact (proj1 (proj2
    (back_restores_tab_below ""
       (Script.trace [NavigateTo "cart"; NavigateTo "account"] at_load)
       [Home] "cart" (Tab "account") eq_refl eq_refl eq_refl))).
Defined.

Lemma pop_to_product_hooks (hash : string) (s : State)
    (rest : list NavEntry) (i : Z) (e : NavEntry) :
  allowExitRef s = false ->
  exitConfirmationShownRef s = false ->
  navStack s = rest ++ [Product i; e] ->
  let r := fst (Script.step Available (PopState hash) s) in
  isAffiliate r = isAffiliate s /\
  match find_product i (productsRef s) with
  | Some product => selectedProduct r = Some product
  | None => selectedProduct r = None /\ activeTab r = "home"
  end.
Proof.
  intros Ha Hc Hst. cbv zeta.
  destruct (two_on_top rest (Product i) e) as [Hlen [Hrm Htop]].
  rewrite <- Hst in Hlen, Htop.
  rewrite (step_pop_path hash s (Product i) Ha Hc Hlen Htop).
  rewrite Hst, Hrm. cbn [Script.restore productsRef set_locationHash].
  destruct (find_product i (productsRef s)) as [p|];
    cbn [exec exec1 fst]; effects_by_cases; cbn; repeat split.
Qed.

(** X5.  For a session that is not an affiliate, a back notification that
    pops to a [Product i] entry shows the product page of the first
    product with id [i], and the home grid when no product has that id. *)
Theorem back_shows_product_page (hash : string) (s : State)
    (rest : list NavEntry) (i : Z) (e : NavEntry) :
  allowExitRef s = false ->
  exitConfirmationShownRef s = false ->
  isAffiliate s = false ->
  navStack s = rest ++ [Product i; e] ->
  ScriptUi.renderMain (fst (Script.step Available (PopState hash) s)) =
    match find_product i (productsRef s) with
    | Some product => ScriptUi.ProductDetail product
    | None => ScriptUi.HomeGrid
    end.
Proof.
  intros Ha Hc Hf Hst.
  destruct (pop_to_product_hooks hash s rest i e Ha Hc Hst) as [Haf Hv].
  unfold ScriptUi.renderMain. rewrite Haf, Hf.
  destruct (find_product i (productsRef s)) as [p|].
  - now rewrite Hv.
  - destruct Hv as [-> ->]. reflexivity.
Qed.

Lemma back_shows_product_page_witness :
  ScriptUi.renderMain
    (fst (Script.step Available (PopState "") stale_product))
    = ScriptUi.HomeGrid /\
  ScriptUi.renderMain
    (fst (Script.step Available (PopState "") live_product))
    = ScriptUi.ProductDetail (mkProduct 2 "Smart Fitness Watch Pro").
Proof.
  split.
  - exact (back_shows_product_page "" stale_product [Home] 7 (Tab "cart")
             eq_refl eq_refl eq_refl eq_refl).
  - exact (back_shows_product_page "" live_product [Home] 2 (Tab "cart")
             eq_refl eq_refl eq_refl eq_refl).
Defined.

(** ** The CMS and the administrator privilege *)

Lemma restore_cms_locked (api : HistoryApi) (top : NavEntry) (s : State) :
  cms_locked s -> cms_locked (fst (exec api (Script.restore top s) s)).
Proof.
  intros [Had [Hre Hcm]]. unfold cms_locked.
  destruct top; cbn [Script.restore].
  - destruct (isAffiliateRef s); cbn; auto.
  - cbn; auto.
  - destruct (find_product id0 (productsRef s)); cbn; auto.
  - rewrite Hre. cbn; auto.
  - destruct (isAffiliateRef s); cbn; auto.
Qed.

Lemma handler_cms_locked (ev : Event) (s : State) :
  cms_locked s -> cms_locked (fst (exec Available (Script.handle ev s) s)).
Proof.
  intros H. pose proof H as [Had [Hre Hcm]].
  destruct ev as [hash|navState|target| | |]; cbn [Script.handle];
    try (cbn; unfold cms_locked; cbn; auto; fail).
  unfold Script.handlePopState, Script.popStateUpdater.
  destruct (allowExitRef s); [cbn; unfold cms_locked; cbn; auto|].
  destruct (exitConfirmationShownRef s);
    [cbn; unfold cms_locked; cbn; auto|].
  cbv zeta. destruct (Nat.leb _ 1); [cbn; unfold cms_locked; cbn; auto|].
  destruct (last_entry _) as [top|]; [|exact H].
  rewrite exec_app.
  destruct (exec_view_only Available _ s (restore_view_only top s))
    as [Hn _].
  rewrite Hn. cbn [exec exec1 fst].
  destruct (restore_cms_locked Available top s H) as [? [? ?]].
  unfold cms_locked. cbn. auto.
Qed.

Lemma effects_cms_locked (before after : State) :
  isAdmin before = false -> cms_locked after ->
  cms_locked (fst (exec Available (Script.effects before after) after)).
Proof.
  intros Hb [Had [Hre Hcm]]. unfold Script.effects, cms_locked.
  rewrite Hb, Had. cbn [Bool.eqb app].
  destruct (Bool.eqb _ _); destruct (same_selection _ _);
    try destruct (selectedProduct after);
    try destruct (String.prefix _ _); cbn; auto.
Qed.

Lemma step_cms_locked (ev : Event) (s : State) :
  cms_locked s -> cms_locked (fst (Script.step Available ev s)).
Proof.
  intros H. destruct (handler_summary ev s) as [Hn _]. cbv zeta in Hn.
  unfold Script.step, react. cbv zeta. rewrite Hn.
  assert (H0 : cms_locked (arrive ev s)) by (destruct ev; exact H).
  apply effects_cms_locked; [apply H0 | now apply handler_cms_locked].
Qed.

Lemma trace_cms_locked (evs : list Event) (s : State) :
  cms_locked s -> cms_locked (Script.trace evs s).
Proof.
  revert s; induction evs as [|ev evs IH]; intros s H; simpl.
  - exact H.
  - apply IH, step_cms_locked, H.
Qed.

Lemma logout_cms_locked (s : State) :
  isAdminRef s = isAdmin s ->
  cms_locked (fst (Script.step Available Logout s)).
Proof.
  intros Hsync. unfold Script.step, react. cbv zeta.
  cbn -[Script.effects]. unfold Script.effects, cms_locked.
  cbn [isAdmin isAffiliate selectedProduct locationHash set_isLoggedIn
       set_isAdmin set_isAffiliate set_currentUser set_showCMS
       set_activeTab set_affiliateActiveTab set_navStack set_modal].
  rewrite same_selection_refl.
  destruct (isAdmin s) eqn:Had; destruct (isAffiliate s); cbn; auto.
Qed.

Lemma cms_locked_no_panel (s : State) :
  cms_locked s -> ScriptUi.renderMain s <> ScriptUi.CmsPanel.
Proof.
  intros [Had [_ _]]. unfold ScriptUi.renderMain, ScriptUi.renderAccount.
  rewrite Had, andb_false_r.
  destruct (isAffiliate s); [discriminate|].
  destruct (selectedProduct s); [discriminate|].
  repeat (destruct (String.eqb _ _); [discriminate|]).
  destruct (String.eqb _ _); [|discriminate].
  destruct (negb _); discriminate.
Qed.

(** X6.  After logout no sequence of pushes, back notifications and
    dialog clicks opens the CMS again: [showCMS] and [isAdmin] stay
    [false] and the page never shows the CMS panel, even when the
    sequence pushes [Cms] entries and pops back onto them.  (The ref
    [isAdminRef] is assumed in step with [isAdmin], as the effect of line
    764 keeps it.) *)
Theorem no_cms_after_logout (s : State) (evs : list Event) :
  isAdminRef s = isAdmin s ->
  let s' := Script.trace (Logout :: evs) s in
  showCMS s' = false /\ isAdmin s' = false /\
  ScriptUi.renderMain s' <> ScriptUi.CmsPanel.
Proof.
  intros Hsync. cbv zeta.
  assert (H : cms_locked (Script.trace (Logout :: evs) s)).
  { cbn [Script.trace run].
    change (run Script.handle Script.effects) with Script.trace.
    change (react Script.handle Script.effects) with Script.step.
    apply trace_cms_locked, logout_cms_locked, Hsync. }
  pose proof (cms_locked_no_panel _ H) as Hp.
  destruct H as [Had [_ Hcm]]. auto.
Qed.

Lemma no_cms_after_logout_witness :
  showCMS
    (Script.trace
       [Logout; NavigateTo "account"; PushNavState Cms;
        PushNavState (Tab "cart"); PopState ""] admin_in_cms) = false.
Proof.
  exact (proj1
    (no_cms_after_logout admin_in_cms
       [NavigateTo "account"; PushNavState Cms; PushNavState (Tab "cart");
        PopState ""] eq_refl)).
Defined.

(** ** The click handlers *)

Lemma ui_step_core (api : HistoryApi) (ev : Event) (s : State) :
  ScriptUi.step api (ScriptUi.Core ev) s = Script.step api ev s.
Proof. reflexivity. Qed.

(** X7.  A click on a product card selects that product, appends its
    [Product] entry to the stack and records the stack push; unless that
    product was already selected, the fragment effect then records a
    second push, to [#product-<id>], so one click makes two history
    entries for one stack entry. *)
Theorem product_card_click_pushes (product : ProductObj) (s : State) :
  let r := ScriptUi.step Available (ScriptUi.ProductCardClick product) s in
  snd r = Normal /\
  navStack (fst r) = navStack s ++ [Product (id product)] /\
  selectedProduct (fst r) = Some product /\
  historyCalls (fst r) =
    historyCalls s ++
    CallPushState (Some (Product (id product))) (Some "") LocationHref ::
    (if same_selection (selectedProduct s) (Some product) then []
     else [CallPushState None None
             (UrlString (product_fragment (id product)))]).
Proof.
  cbv zeta. unfold ScriptUi.step. cbv zeta.
  cbn -[Script.effects]. unfold Script.effects.
  cbn [isAdmin isAffiliate selectedProduct locationHash set_navStack
       set_selectedProduct set_historyCalls].
  rewrite !Bool.eqb_reflx.
  destruct (same_selection (selectedProduct s) (Some product)); cbn.
  - repeat split.
  - repeat split. now rewrite <- app_assoc.
Qed.

(** X8.  A click on a cart line whose product is no longer in the
    catalogue changes nothing at all.  When the product is in the
    catalogue, the click selects the catalogue's object (not the cart's
    copy), appends its [Product] entry to the stack and selects the home
    tab. *)
Theorem cart_click_on_missing_product (product : ProductObj) (s : State) :
  let r := ScriptUi.step Available (ScriptUi.CartProductClick product) s in
  match find_product (id product) (productsRef s) with
  | None => r = (s, Normal)
  | Some fullProduct =>
      snd r = Normal /\
      selectedProduct (fst r) = Some fullProduct /\
      navStack (fst r) = navStack s ++ [Product (id product)] /\
      activeTab (fst r) = "home"
  end.
Proof.
  cbv zeta. unfold ScriptUi.step. cbv zeta.
  cbn [ScriptUi.arrival ScriptUi.handle].
  unfold ScriptUi.handleCartProductClick.
  destruct (find_product (id product) (productsRef s)) as [p|] eqn:E.
  - destruct (find_product_some _ _ _ E) as [Hid _].
    cbn -[Script.effects]. unfold Script.effects.
    cbn [isAdmin isAffiliate selectedProduct locationHash set_navStack
         set_selectedProduct set_historyCalls set_activeTab].
    rewrite !Bool.eqb_reflx, Hid.
    destruct (same_selection (selectedProduct s) (Some p)); cbn;
      repeat split.
  - cbn -[Script.effects]. rewrite effects_nil by reflexivity. reflexivity.
Qed.

Lemma keeps_or_pushes_same_nav (s t u : State) :
  keeps_or_pushes s t -> same_nav t u -> keeps_or_pushes s u.
Proof.
  intros [Hal [Hsh H]] [Hst' Hal' Hsh' _ Hco']. unfold keeps_or_pushes.
  rewrite Hst', Hal', Hsh', Hco'. auto.
Qed.

Lemma click_handler_nav (a : ScriptUi.Action) (s : State) :
  (forall ev, a <> ScriptUi.Core ev) ->
  snd (exec Available (ScriptUi.handle a s) s) = Normal /\
  keeps_or_pushes s (fst (exec Available (ScriptUi.handle a s) s)).
Proof.
  intros Hnc. unfold keeps_or_pushes.
  destruct a as [ev|product|product| | | |tab]; cbn [ScriptUi.handle].
  - now elim (Hnc ev).
  - unfold ScriptUi.handleCartProductClick.
    destruct (find_product _ _) as [p|]; cbn.
    + rewrite nav_pushes_snoc_entry. repeat split. right.
      now exists (Product (id p)).
    + repeat split. now left.
  - cbn. rewrite nav_pushes_snoc_entry. repeat split. right.
    now exists (Product (id product)).
  - cbn. rewrite nav_pushes_snoc_entry. repeat split. right.
    now exists Cms.
  - cbn. rewrite nav_pushes_snoc_back. repeat split. now left.
  - cbn. rewrite nav_pushes_snoc_back. repeat split. now left.
  - cbn. rewrite nav_pushes_snoc_entry. repeat split. right.
    now exists (AffiliateTab tab).
Qed.

Lemma click_step_nav (a : ScriptUi.Action) (s : State) :
  (forall ev, a <> ScriptUi.Core ev) ->
  keeps_or_pushes s (fst (ScriptUi.step Available a s)).
Proof.
  intros Hnc. destruct (click_handler_nav a s Hnc) as [Hn Hk].
  unfold ScriptUi.step. cbv zeta.
  replace (ScriptUi.arrival a s) with s
    by (destruct a; try reflexivity; now elim (Hnc ev)).
  rewrite Hn.
  eapply keeps_or_pushes_same_nav; [exact Hk|].
  apply exec_effect_only, effects_effect_only.
Qed.

Lemma action_step_invariants (a : ScriptUi.Action) (s : State) :
  home_floor (navStack s) /\ exit_guard_ok s /\
  List.length (navStack s) <= 1 + nav_pushes (historyCalls s) ->
  home_floor (navStack (fst (ScriptUi.step Available a s))) /\
  exit_guard_ok (fst (ScriptUi.step Available a s)) /\
  List.length (navStack (fst (ScriptUi.step Available a s)))
    <= 1 + nav_pushes (historyCalls (fst (ScriptUi.step Available a s))).
Proof.
  intros [Hf [Hg Hc]].
  assert (Hcase : (exists ev, a = ScriptUi.Core ev) \/
                  (forall ev, a <> ScriptUi.Core ev))
    by (destruct a; try (right; discriminate); left; now eexists).
  destruct Hcase as [[ev ->]|Hnc].
  - rewrite ui_step_core.
    split; [now apply step_home_floor|].
    split; [now apply step_exit_guard | now apply step_count_le].
  - destruct (click_step_nav a s Hnc) as [Hal [Hsh Hk]].
    unfold exit_guard_ok in *. rewrite Hal, Hsh.
    destruct Hk as [[-> ->]|[e [-> ->]]].
    + auto.
    + split; [now apply home_floor_snoc|]. split; [exact Hg|].
      rewrite length_app. simpl. lia.
Qed.

(** X9.  The click handlers keep what the navigation core keeps: from
    page load, after any sequence of navigation events and clicks (product
    cards, cart lines, the CMS button, Back to Site, the product page's
    arrow, affiliate tabs), the stack is non-empty with [Home] at index 0,
    at most one exit flag is set, and the stack length is at most one
    plus the number of stack pushes. *)
Theorem clicks_keep_invariants (loggedIn admin affiliate : bool)
    (user : option User) (catalogue : list ProductObj) (hash : string)
    (acts : list ScriptUi.Action) :
  let s := ScriptUi.trace acts
             (initial loggedIn admin affiliate user catalogue hash) in
  home_floor (navStack s) /\ exit_guard_ok s /\
  List.length (navStack s) <= 1 + nav_pushes (historyCalls s).
Proof.
  cbv zeta.
  assert (H : forall s,
             home_floor (navStack s) /\ exit_guard_ok s /\
             List.length (navStack s) <= 1 + nav_pushes (historyCalls s) ->
             home_floor (navStack (ScriptUi.trace acts s)) /\
             exit_guard_ok (ScriptUi.trace acts s) /\
             List.length (navStack (ScriptUi.trace acts s))
               <= 1 + nav_pushes (historyCalls (ScriptUi.trace acts s))).
  { induction acts as [|a acts IH]; intros s Hs; [exact Hs|].
    cbn [ScriptUi.trace]. apply IH, action_step_invariants, Hs. }
  apply H. split; [apply initial_home_floor|].
  split; [reflexivity | cbn; lia].
Qed.

Lemma step_cmsPanelOnClick (s : State) :
  ScriptUi.step Available ScriptUi.CmsPanelClick s =
  (set_historyCalls
     (historyCalls s ++ [CallPushState (Some Cms) (Some "") LocationHref])
     (set_navStack (navStack s ++ [Cms]) (set_showCMS true s)), Normal).
Proof.
  unfold ScriptUi.step. cbv zeta. cbn -[Script.effects].
  rewrite effects_nil by reflexivity. reflexivity.
Qed.

Lemma step_backToSiteOnClick (s : State) :
  ScriptUi.step Available ScriptUi.BackToSiteClick s =
  (set_historyCalls (historyCalls s ++ [CallBack]) (set_showCMS false s),
   Normal).
Proof.
  unfold ScriptUi.step. cbv zeta. cbn -[Script.effects].
  rewrite effects_nil by reflexivity. reflexivity.
Qed.

(** X10.  Opening the CMS, pressing Back to Site and receiving the back
    notification this triggers returns the stack to what it was, with
    both exit flags clear.  The CMS is closed afterwards, except when the
    entry on top of the original stack is itself a [Cms] entry and the
    session is an administrator's: then the restoration opens it again. *)
Theorem cms_open_close_round_trip (hash : string) (s : State) :
  guard_idle s = true ->
  navStack s <> [] ->
  let s' := ScriptUi.trace
              [ScriptUi.CmsPanelClick; ScriptUi.BackToSiteClick;
               ScriptUi.Core (PopState hash)] s in
  navStack s' = navStack s /\
  guard_idle s' = true /\
  showCMS s' = match last_entry (navStack s) with
               | Some Cms => isAdminRef s
               | _ => false
               end.
Proof.
  intros Hi Hne. cbv zeta. cbn [ScriptUi.trace].
  rewrite step_cmsPanelOnClick. cbn [fst].
  rewrite step_backToSiteOnClick. cbn [fst]. rewrite ui_step_core.
  destruct (exists_last Hne) as [l [top Hst]].
  pose proof Hi as Hi'. unfold guard_idle in Hi'.
  apply negb_true_iff, orb_false_iff in Hi'. destruct Hi' as [Ha Hc].
  match goal with
  | |- context [Script.step Available (PopState hash) ?t] => set (s2 := t)
  end.
  assert (Hst2 : navStack s2 = l ++ [top; Cms])
    by (cbn; rewrite Hst, <- app_assoc; reflexivity).
  destruct (two_on_top l top Cms) as [Hlen [Hrm Htop]].
  rewrite <- Hst2 in Hlen, Htop.
  rewrite (step_pop_path hash s2 top Ha Hc Hlen Htop).
  match goal with
  | |- context [exec Available (Script.effects ?b ?t) ?t] =>
      destruct (exec_effect_only (Script.effects b t) t
                  (effects_effect_only b t)) as [_ [Hn1 Hn2 Hn3 _ _]];
      destruct (exec_effect_only_view Available (Script.effects b t) t
                  (effects_effect_only b t)) as [_ [_ Hcm]]
  end.
  rewrite Hn1. unfold guard_idle. rewrite Hn2, Hn3, Hcm.
  destruct (exec_view_only Available
              (Script.restore top (set_locationHash hash s2))
              (set_locationHash hash s2)
              (restore_view_only top (set_locationHash hash s2)))
    as [_ [_ Hal Hsh _ _ _ _ _]].
  cbn [navStack allowExitRef exitConfirmationShownRef set_navStack].
  rewrite Hal, Hsh, Hst2, Hrm.
  split; [now rewrite Hst|]. split; [exact Hi|].
  rewrite Hst, last_entry_snoc.
  destruct top; cbn [Script.restore].
  - destruct (isAffiliateRef _); reflexivity.
  - reflexivity.
  - destruct (find_product _ _); reflexivity.
  - cbn [isAdminRef s2 set_locationHash set_historyCalls set_showCMS
         set_navStack].
    destruct (isAdminRef s); reflexivity.
  - destruct (isAffiliateRef _); reflexivity.
Qed.

Lemma cms_open_close_round_trip_witness :
  navStack
    (ScriptUi.trace
       [ScriptUi.CmsPanelClick; ScriptUi.BackToSiteClick;
        ScriptUi.Core (PopState "")]
       (Script.trace [NavigateTo "account"] at_load))
    = [Home; Tab "account"].
Proof.
  exact (proj1
    (cms_open_close_round_trip ""
       (Script.trace [NavigateTo "account"] at_load)
       eq_refl (fun H => match H with eq_refl => I end))).
Defined.

(** ** Where an exception surfaces, in the two variants *)

Lemma popStateUpdater_agree (s : State) :
  Script.popStateUpdater s = Part000.popStateUpdater s.
Proof.
  unfold Script.popStateUpdater, Part000.popStateUpdater. cbv zeta.
  destruct (Nat.leb _ 1); [reflexivity|].
  destruct (last_entry _) as [top|]; [|reflexivity].
  now rewrite restore_agree.
Qed.

Lemma listener_agree (ev : Event) (s : State) :
  Script.listener ev s = Part000.listener ev s.
Proof.
  destruct ev; cbn [Script.listener Part000.listener];
    try apply handle_agree.
  now rewrite handlePopState_agree.
Qed.

Lemma queued_agree (ev : Event) (s : State) :
  Script.queued ev s = Part000.queued ev s.
Proof.
  destruct ev; reflexivity.
Qed.

(** X25.  The two variants agree on what goes wrong as well: they queue
    the same updater from the back/forward listener, split every handler
    the same way into its own statements and those of the updater, give
    every event the same fate with or without a working
    [window.history], and run the same effect at mount. *)
Theorem variants_agree_on_failures :
  (forall s : State,
     Script.popStateUpdater s = Part000.popStateUpdater s) /\
  (forall (ev : Event) (s : State),
     Script.listener ev s = Part000.listener ev s /\
     Script.queued ev s = Part000.queued ev s) /\
  (forall (api : HistoryApi) (ev : Event) (s : State),
     Script.fate api ev s = Part000.fate api ev s) /\
  (forall historyState : option NavEntry,
     Script.mountEffect historyState = Part000.mountEffect historyState).
Proof.
  split; [exact popStateUpdater_agree|].
  split; [intros ev s; split; [apply listener_agree | apply queued_agree]|].
  split; [|reflexivity].
  intros api ev s. unfold Script.fate, Part000.fate. cbv zeta.
  now rewrite listener_agree, queued_agree.
Qed.

(** * [simpleHash] *)

Lemma toInt32_range (z : Z) :
  (- 2 ^ 31 <= SimpleHash.toInt32 z < 2 ^ 31)%Z.
Proof.
  unfold SimpleHash.toInt32.
  pose proof (Z.mod_pos_bound (z + 2 ^ 31) (2 ^ 32) eq_refl). lia.
Qed.

Lemma toInt32_offset (z : Z) :
  exists k : Z, SimpleHash.toInt32 z = (z + k * 2 ^ 32)%Z.
Proof.
  exists (- ((z + 2 ^ 31) / 2 ^ 32))%Z. unfold SimpleHash.toInt32.
  rewrite Z.mod_eq by lia. lia.
Qed.

Lemma toInt32_shift (z k : Z) :
  SimpleHash.toInt32 (z + k * 2 ^ 32) = SimpleHash.toInt32 z.
Proof.
  unfold SimpleHash.toInt32.
  replace (z + k * 2 ^ 32 + 2 ^ 31)%Z with (z + 2 ^ 31 + k * 2 ^ 32)%Z
    by lia.
  now rewrite Z_mod_plus_full.
Qed.

Lemma toInt32_small (z : Z) :
  (- 2 ^ 31 <= z < 2 ^ 31)%Z -> SimpleHash.toInt32 z = z.
Proof.
  intros H. unfold SimpleHash.toInt32. rewrite Z.mod_small; lia.
Qed.

Lemma round_poly (hash : Z) (c : Ascii.ascii) :
  SimpleHash.round hash c =
  SimpleHash.toInt32 (31 * hash + SimpleHash.charCode c).
Proof.
  unfold SimpleHash.round, SimpleHash.band. cbv zeta.
  rewrite Z.land_diag. unfold SimpleHash.shl5.
  destruct (toInt32_offset hash) as [k1 ->].
  destruct (toInt32_offset ((hash + k1 * 2 ^ 32) * 2 ^ 5)) as [k2 ->].
  rewrite <- (toInt32_shift (31 * hash + SimpleHash.charCode c)
                (32 * k1 + k2)).
  f_equal. change (2 ^ 5)%Z with 32%Z. ring.
Qed.

Lemma loop_app (hash : Z) (s1 s2 : string) :
  SimpleHash.loop hash (s1 ++ s2) =
  SimpleHash.loop (SimpleHash.loop hash s1) s2.
Proof.
  revert hash; induction s1 as [|c s1 IH]; intros hash; simpl; auto.
Qed.

Lemma loop_range (hash : Z) (str : string) :
  (- 2 ^ 31 <= hash < 2 ^ 31)%Z ->
  (- 2 ^ 31 <= SimpleHash.loop hash str < 2 ^ 31)%Z.
Proof.
  revert hash; induction str as [|c str IH]; intros hash H; simpl.
  - exact H.
  - apply IH. rewrite round_poly. apply toInt32_range.
Qed.

Lemma loop_offset (hash : Z) (str : string) :
  exists k : Z,
    SimpleHash.loop hash str =
    (hash * 31 ^ Z.of_nat (String.length str) + SimpleHash.loop 0 str
     + k * 2 ^ 32)%Z.
Proof.
  revert hash; induction str as [|c str IH]; intros hash.
  - exists 0%Z. simpl. lia.
  - cbn [SimpleHash.loop String.length].
    destruct (IH (SimpleHash.round hash c)) as [k1 ->].
    destruct (IH (SimpleHash.round 0 c)) as [k2 ->].
    rewrite !round_poly.
    destruct (toInt32_offset (31 * hash + SimpleHash.charCode c))
      as [k3 ->].
    destruct (toInt32_offset (31 * 0 + SimpleHash.charCode c)) as [k4 ->].
    rewrite Nat2Z.inj_succ, Z.pow_succ_r by lia.
    exists (k3 * 31 ^ Z.of_nat (String.length str) + k1
            - k4 * 31 ^ Z.of_nat (String.length str) - k2)%Z.
    ring.
Qed.

(** X11.  The number [simpleHash] computes is the polynomial hash with
    multiplier 31, reduced to a signed 32-bit integer after every
    character: the empty string gives 0, one more character [c] turns [h]
    into ToInt32(31 h + code c), and the value is always in
    [-2^31, 2^31). *)
Theorem simpleHash_polynomial (str : string) (c : Ascii.ascii) :
  SimpleHash.loop 0 "" = 0%Z /\
  SimpleHash.loop 0 (str ++ String c "") =
    SimpleHash.toInt32
      (31 * SimpleHash.loop 0 str + SimpleHash.charCode c) /\
  (- 2 ^ 31 <= SimpleHash.loop 0 str < 2 ^ 31)%Z.
Proof.
  split; [reflexivity|]. split.
  - rewrite loop_app. simpl. apply round_poly.
  - apply loop_range. lia.
Qed.

(** X12.  Hashing a concatenation: the number for [s1 ++ s2] is
    ToInt32 of the number for [s1] times 31 to the length of [s2], plus
    the number for [s2]. *)
Theorem simpleHash_concat (s1 s2 : string) :
  SimpleHash.loop 0 (s1 ++ s2) =
  SimpleHash.toInt32
    (SimpleHash.loop 0 s1 * 31 ^ Z.of_nat (String.length s2) +
     SimpleHash.loop 0 s2).
Proof.
  rewrite loop_app.
  rewrite <- (toInt32_small (SimpleHash.loop (SimpleHash.loop 0 s1) s2))
    by (apply loop_range, loop_range; lia).
  destruct (loop_offset (SimpleHash.loop 0 s1) s2) as [k ->].
  apply toInt32_shift.
Qed.

Lemma append_inj_l (p a b : string) : (p ++ a = p ++ b)%string -> a = b.
Proof.
  induction p as [|c p IH]; simpl; intros H; [exact H|].
  injection H as H. now apply IH.
Qed.

Lemma simpleHash_Aa_BB (p q : string) :
  SimpleHash.simpleHash (p ++ "Aa" ++ q) =
  SimpleHash.simpleHash (p ++ "BB" ++ q).
Proof.
  unfold SimpleHash.simpleHash. f_equal.
  rewrite !loop_app. f_equal.
  cbn [SimpleHash.loop]. rewrite !round_poly.
  repeat match goal with
    | |- context [SimpleHash.charCode ?c] =>
        let v := eval vm_compute in (SimpleHash.charCode c) in
        change (SimpleHash.charCode c) with v
    end.
  set (h := SimpleHash.loop 0 p).
  destruct (toInt32_offset (31 * h + 65)) as [k1 ->].
  destruct (toInt32_offset (31 * h + 66)) as [k2 ->].
  rewrite <- (toInt32_shift (31 * (31 * h + 66 + k2 * 2 ^ 32) + 66)
                (31 * k1 - 31 * k2)).
  f_equal. ring.
Qed.

(** X13.  [simpleHash] is not injective, and its collisions survive any
    prefix and suffix: replacing an occurrence of [Aa] by [BB] anywhere in
    a string gives a different string with the same hash. *)
Theorem simpleHash_collisions (p q : string) :
  (p ++ "Aa" ++ q)%string <> (p ++ "BB" ++ q)%string /\
  SimpleHash.simpleHash (p ++ "Aa" ++ q) =
  SimpleHash.simpleHash (p ++ "BB" ++ q).
Proof.
  split.
  - intros H. apply append_inj_l in H. discriminate H.
  - apply simpleHash_Aa_BB.
Qed.

Lemma to_hex_int_not_nil (z : Z) :
  Z.to_hex_int z <> Hexadecimal.Pos Hexadecimal.Nil /\
  Z.to_hex_int z <> Hexadecimal.Neg Hexadecimal.Nil.
Proof.
  split; intros H; pose proof (HexadecimalZ.of_to z) as E;
    rewrite H in E; cbn in E; subst z; discriminate H.
Qed.

(** X14.  The hexadecimal rendering loses nothing: two strings have the
    same [simpleHash] exactly when their 32-bit numbers are equal. *)
Theorem simpleHash_eq_iff (s1 s2 : string) :
  SimpleHash.simpleHash s1 = SimpleHash.simpleHash s2 <->
  SimpleHash.loop 0 s1 = SimpleHash.loop 0 s2.
Proof.
  unfold SimpleHash.simpleHash, SimpleHash.toString16. split.
  - intros H.
    apply (f_equal HexadecimalString.NilZero.int_of_string) in H.
    destruct (to_hex_int_not_nil (SimpleHash.loop 0 s1)) as [H1 H1'].
    destruct (to_hex_int_not_nil (SimpleHash.loop 0 s2)) as [H2 H2'].
    rewrite !HexadecimalString.NilZero.isi in H by assumption.
    injection H as H. now apply HexadecimalZ.to_int_inj.
  - now intros ->.
Qed.

Lemma simpleHash_eq_iff_witness :
  SimpleHash.loop 0 "Aa" = SimpleHash.loop 0 "BB".
Proof.
  apply (proj1 (simpleHash_eq_iff "Aa" "BB")). reflexivity.
Defined.

(** * The flash sale countdown *)

Lemma tick_cases (t : FlashSale.TimeLeft) :
  FlashSale.reading t ->
  FlashSale.reading (FlashSale.tick t) /\
  ((0 < FlashSale.total t)%Z ->
   FlashSale.total (FlashSale.tick t) = (FlashSale.total t - 1)%Z) /\
  (FlashSale.total t = 0%Z -> FlashSale.tick t = FlashSale.start).
Proof.
  destruct t as [h m s]. unfold FlashSale.reading, FlashSale.total,
    FlashSale.tick, FlashSale.start. cbn [FlashSale.hours
    FlashSale.minutes FlashSale.seconds]. intros (Hh & Hm & Hs).
  destruct (Z.ltb_spec (s - 1) 0);
    [destruct (Z.ltb_spec (m - 1) 0);
       [destruct (Z.ltb_spec (h - 1) 0)|]|];
    cbn [FlashSale.hours FlashSale.minutes FlashSale.seconds];
    repeat split; intros; try lia; try reflexivity.
  all: exfalso; lia.
Qed.

(** X15.  One tick of the countdown, from a clock reading (minutes and
    seconds below 60, nothing negative): the result is again a clock
    reading; while time is left it is exactly one second less; from
    0:00:00 the countdown restarts at 4:23:15; and the hours never exceed
    the larger of 4 and what they were. *)
Theorem countdown_tick (t : FlashSale.TimeLeft) :
  FlashSale.reading t ->
  FlashSale.reading (FlashSale.tick t) /\
  ((0 < FlashSale.total t)%Z ->
   FlashSale.total (FlashSale.tick t) = (FlashSale.total t - 1)%Z) /\
  (FlashSale.total t = 0%Z -> FlashSale.tick t = FlashSale.start) /\
  (FlashSale.hours (FlashSale.tick t) <= Z.max (FlashSale.hours t) 4)%Z.
Proof.
  intros Hr. destruct (tick_cases t Hr) as (Hr' & Hdec & Hzero).
  repeat split; try apply Hr'; try assumption.
  destruct t as [h m s]. unfold FlashSale.tick.
  cbn [FlashSale.hours FlashSale.minutes FlashSale.seconds].
  destruct (Z.ltb (s - 1) 0); [destruct (Z.ltb (m - 1) 0);
    [destruct (Z.ltb (h - 1) 0)|]|]; cbn; lia.
Qed.

Lemma countdown_tick_witness :
  FlashSale.total (FlashSale.tick (FlashSale.mkTimeLeft 1 0 0)) = 3599%Z.
Proof.
  apply (proj1 (proj2
    (countdown_tick (FlashSale.mkTimeLeft 1 0 0)
       ltac:(unfold FlashSale.reading; cbn; lia)))).
  reflexivity.
Defined.

Lemma ticks_total (n : nat) (t : FlashSale.TimeLeft) :
  FlashSale.reading t -> (Z.of_nat n <= FlashSale.total t)%Z ->
  FlashSale.reading (FlashSale.ticks n t) /\
  FlashSale.total (FlashSale.ticks n t)
    = (FlashSale.total t - Z.of_nat n)%Z.
Proof.
  revert t; induction n as [|n IH]; intros t Hr Hn.
  - cbn [FlashSale.ticks]. split; [exact Hr | cbn; lia].
  - cbn [FlashSale.ticks].
    destruct (tick_cases t Hr) as [Hr' [Hdec _]].
    rewrite Nat2Z.inj_succ in Hn.
    destruct (IH (FlashSale.tick t) Hr') as [Hr'' Ht].
    + rewrite Hdec; lia.
    + split; [exact Hr''|]. rewrite Ht, Hdec; lia.
Qed.

Lemma reading_zero (t : FlashSale.TimeLeft) :
  FlashSale.reading t -> FlashSale.total t = 0%Z ->
  t = FlashSale.mkTimeLeft 0 0 0.
Proof.
  destruct t as [h m s]. unfold FlashSale.reading, FlashSale.total.
  cbn. intros (Hh & Hm & Hs) H.
  assert (h = 0 /\ m = 0 /\ s = 0)%Z as (-> & -> & ->) by lia.
  reflexivity.
Qed.

Lemma ticks_snoc (n : nat) (t : FlashSale.TimeLeft) :
  FlashSale.ticks (S n) t = FlashSale.tick (FlashSale.ticks n t).
Proof.
  revert t; induction n as [|n IH]; intros t; [reflexivity|].
  cbn [FlashSale.ticks] in *. now rewrite <- IH.
Qed.

(** X16.  From any clock reading the countdown shows 0:00:00 after
    exactly as many ticks as it had seconds left, and 4:23:15 one tick
    later; it never goes below zero.  From 4:23:15 it is back at 4:23:15
    after 15796 ticks. *)
Theorem countdown_reaches_zero_and_restarts (t : FlashSale.TimeLeft) :
  FlashSale.reading t ->
  FlashSale.ticks (Z.to_nat (FlashSale.total t)) t
    = FlashSale.mkTimeLeft 0 0 0 /\
  FlashSale.ticks (S (Z.to_nat (FlashSale.total t))) t = FlashSale.start /\
  (forall n : nat, FlashSale.reading (FlashSale.ticks n t)).
Proof.
  intros Hr.
  assert (H0 : (0 <= FlashSale.total t)%Z).
  { destruct t as [h m s]. unfold FlashSale.reading, FlashSale.total in *.
    cbn in *. lia. }
  destruct (ticks_total (Z.to_nat (FlashSale.total t)) t Hr) as [Hr' Ht];
    [lia|].
  rewrite Z2Nat.id in Ht by lia.
  assert (Hz : FlashSale.ticks (Z.to_nat (FlashSale.total t)) t
               = FlashSale.mkTimeLeft 0 0 0)
    by (apply reading_zero; [exact Hr' | lia]).
  split; [exact Hz|]. split.
  - rewrite ticks_snoc, Hz. reflexivity.
  - intros n. revert t Hr H0 Hr' Ht Hz.
    induction n as [|n IH]; intros t Hr _ _ _ _; [exact Hr|].
    cbn [FlashSale.ticks].
    destruct (tick_cases t Hr) as [Hr1 _].
    assert (H1 : (0 <= FlashSale.total (FlashSale.tick t))%Z).
    { destruct (FlashSale.tick t) as [h m s].
      unfold FlashSale.reading, FlashSale.total in *. cbn in *. lia. }
    destruct (ticks_total (Z.to_nat (FlashSale.total (FlashSale.tick t)))
                (FlashSale.tick t) Hr1) as [Hr2 Ht2]; [lia|].
    rewrite Z2Nat.id in Ht2 by lia.
    apply IH; try assumption.
    apply reading_zero; [exact Hr2 | lia].
Qed.

Lemma countdown_reaches_zero_and_restarts_witness :
  FlashSale.ticks (S (Z.to_nat 15795)) FlashSale.start = FlashSale.start.
Proof.
  exact (proj1 (proj2
    (countdown_reaches_zero_and_restarts FlashSale.start
       ltac:(unfold FlashSale.reading; cbn; lia)))).
Defined.

(** * Infinite scroll *)

Lemma firstn_plus (A : Type) (a b : nat) (l : list A) :
  firstn (a + b) l = firstn a l ++ firstn b (skipn a l).
Proof.
  revert l; induction a as [|a IH]; intros l; [reflexivity|].
  destruct l as [|x l]; simpl.
  - now rewrite firstn_nil.
  - now rewrite IH.
Qed.

Lemma slice_length (A : Type) (l : list A) (p : nat) :
  List.length (Scroll.slice A l (p * 10) (p * 10 + 10))
    = Nat.min 10 (List.length l - p * 10).
Proof.
  unfold Scroll.slice. rewrite length_firstn, length_skipn.
  replace (p * 10 + 10 - p * 10) with 10 by lia. reflexivity.
Qed.

Lemma loads_snoc (A : Type) (n : nat) (l : list A) (st : Scroll.Paging A) :
  Scroll.loads A (S n) l st
    = Scroll.loadFromRender A l (Scroll.loads A n l st).
Proof.
  revert st; induction n as [|n IH]; intros st; [reflexivity|].
  cbn [Scroll.loads] in *. now rewrite <- IH.
Qed.

Lemma loads_invariant (A : Type) (l : list A) (k : nat) :
  let st := Scroll.loads A k l (Scroll.reset A) in
  Scroll.displayedProducts A st = firstn (10 * Scroll.page A st) l /\
  Scroll.page A st <= k /\
  (Scroll.page A st < k -> List.length l <= 10 * Scroll.page A st) /\
  (0 < Scroll.page A st -> 10 * (Scroll.page A st - 1) < List.length l) /\
  Scroll.hasMore A st = Nat.eqb (Scroll.page A st) k.
Proof.
  induction k as [|k IH]; cbv zeta.
  - cbn. repeat split; lia.
  - rewrite loads_snoc. cbv zeta in IH.
    destruct (Scroll.loads A k l (Scroll.reset A)) as [p d h].
    cbn [Scroll.page Scroll.displayedProducts Scroll.hasMore] in IH.
    destruct IH as (Hd & Hp & Hdone & Hlast & Hh).
    unfold Scroll.loadFromRender, Scroll.loadMoreProducts. cbv zeta.
    cbn [Scroll.page Scroll.displayedProducts Scroll.hasMore].
    destruct (Nat.eqb_spec
                (List.length (Scroll.slice A l (p * 10) (p * 10 + 10))) 0)
      as [E|E]; rewrite slice_length in E;
      cbn [Scroll.page Scroll.displayedProducts Scroll.hasMore].
    + assert (Hlen : List.length l <= 10 * p) by lia.
      repeat split; try lia; try assumption.
      symmetry. apply Nat.eqb_neq. lia.
    + assert (Hlen : 10 * p < List.length l) by lia.
      assert (p = k) as -> by lia.
      repeat split; try lia.
      * rewrite Hd. unfold Scroll.slice.
        replace (k * 10 + 10 - k * 10) with 10 by lia.
        replace (10 * (k + 1)) with (10 * k + 10) by lia.
        rewrite firstn_plus. do 3 f_equal. lia.
      * rewrite Hh, !Nat.eqb_refl.
        replace (k + 1) with (S k) by lia. now rewrite Nat.eqb_refl.
Qed.

(** X17.  Infinite scroll.  When every call of [loadMoreProducts] is made
    by the callback of the latest render, the page lists after [k] calls
    from the reset state exactly the first [10 k] filtered products, in
    order (all of them once [10 k] reaches their number); [hasMore] is
    cleared by the first call that finds nothing to add, so it is still
    set exactly when [k] is 0 or more than [10 (k - 1)] products exist.
    The callback slices at the page its render closed over while its
    writes are functional updaters: a second call by the same callback
    appends the same ten products again and advances [page] by two, so
    these products are listed twice and the call of the next render
    continues two pages further: the ten products in between are never
    listed. *)
Theorem scroll_shows_prefix (A : Type) (l : list A) (k : nat) :
  let st := Scroll.loads A k l (Scroll.reset A) in
  let twice := Scroll.loadTwiceFromRender A l st in
  let again := Scroll.slice A l (10 * k) (10 * k + 10) in
  Scroll.displayedProducts A st = firstn (10 * k) l /\
  Scroll.hasMore A st
    = (Nat.eqb k 0 || Nat.ltb (10 * (k - 1)) (List.length l)) /\
  Scroll.page A st = Nat.min k ((List.length l + 9) / 10) /\
  Scroll.displayedProducts A twice = firstn (10 * k) l ++ again ++ again /\
  Scroll.page A twice
    = Scroll.page A st + (if Nat.ltb (10 * k) (List.length l) then 2 else 0) /\
  Scroll.displayedProducts A (Scroll.loadFromRender A l twice)
    = firstn (10 * k) l ++ again ++ again ++
      Scroll.slice A l (10 * (k + 2)) (10 * (k + 2) + 10).
Proof.
  cbv zeta. pose proof (loads_invariant A l k) as H. cbv zeta in H.
  unfold Scroll.loadTwiceFromRender.
  destruct (Scroll.loads A k l (Scroll.reset A)) as [p d h].
  cbn [Scroll.page Scroll.displayedProducts Scroll.hasMore] in *.
  destruct H as (Hd & Hp & Hdone & Hlast & Hh).
  assert (Hceil : forall n, n <= (List.length l + 9) / 10 <->
                            (n = 0 \/ 10 * (n - 1) < List.length l)).
  { intros n. split; intros Hn.
    - destruct n; [now left | right].
      assert (10 * S n <= List.length l + 9); [|lia].
      transitivity (10 * ((List.length l + 9) / 10));
        [lia | apply Nat.Div0.mul_div_le].
    - destruct Hn as [->|Hn]; [lia|].
      apply Nat.div_le_lower_bound; lia. }
  assert (Hprefix : d = firstn (10 * k) l).
  { rewrite Hd. destruct (Nat.eq_dec p k) as [->|Hne]; [reflexivity|].
    rewrite !firstn_all2; [reflexivity | lia | lia]. }
  split; [exact Hprefix|]. split; [|split].
  - rewrite Hh. destruct (Nat.eqb_spec p k) as [->|Hne].
    + destruct k; [reflexivity|]. cbn [Nat.eqb orb]. symmetry.
      apply Nat.ltb_lt. lia.
    + symmetry. apply orb_false_iff. split.
      * apply Nat.eqb_neq. lia.
      * apply Nat.ltb_ge. lia.
  - destruct (Nat.eq_dec p k) as [->|Hne].
    + symmetry. apply Nat.min_l. apply Hceil. lia.
    + assert (Hpk : p < k) by lia. specialize (Hdone Hpk).
      assert (Hle : (List.length l + 9) / 10 < S p).
      { apply Nat.Div0.div_lt_upper_bound. lia. }
      assert (Hge : p <= (List.length l + 9) / 10) by (apply Hceil; lia).
      lia.
  - assert (Hempty : forall q, List.length l <= q * 10 ->
                        Scroll.slice A l (q * 10) (q * 10 + 10) = []).
    { intros q Hq. apply length_zero_iff_nil. rewrite slice_length. lia. }
    unfold Scroll.loadFromRender, Scroll.loadMoreProducts. cbv zeta.
    cbn [Scroll.page Scroll.displayedProducts Scroll.hasMore].
    rewrite !(Nat.mul_comm 10).
    destruct (Nat.le_gt_cases (List.length l) (p * 10)) as [Hend|Hmore].
    + rewrite (Hempty p Hend).
      cbn [List.length Nat.eqb Scroll.page Scroll.displayedProducts].
      rewrite (Hempty p Hend), (Hempty k), (Hempty (k + 2)) by lia.
      cbn [List.length Nat.eqb Scroll.displayedProducts]. rewrite !app_nil_r.
      destruct (Nat.ltb_spec (k * 10) (List.length l)); [lia|].
      rewrite (Nat.mul_comm 10 k) in Hprefix.
      repeat split; [exact Hprefix | lia | exact Hprefix].
    + assert (p = k) as -> by lia.
      assert (Hnew : Nat.eqb
                (List.length (Scroll.slice A l (k * 10) (k * 10 + 10))) 0
                = false).
      { apply Nat.eqb_neq. rewrite slice_length. lia. }
      rewrite Hnew.
      cbn [Scroll.page Scroll.displayedProducts Scroll.hasMore].
      destruct (Nat.ltb_spec (k * 10) (List.length l)); [|lia].
      rewrite (Nat.mul_comm 10 k) in Hprefix. rewrite <- Hprefix.
      replace (k + 1 + 1) with (k + 2) by lia.
      split; [now rewrite <- app_assoc|]. split; [lia|].
      destruct (Nat.eqb
                  (List.length
                     (Scroll.slice A l ((k + 2) * 10) ((k + 2) * 10 + 10)))
                  0) eqn:E;
        cbn [Scroll.displayedProducts].
      * apply Nat.eqb_eq, length_zero_iff_nil in E. rewrite E.
        now rewrite !app_nil_r, <- app_assoc.
      * now rewrite <- !app_assoc.
Qed.

(** * Login *)

Lemma matches_spec (form : Auth.LoginForm) (hashed : string)
    (l : list Auth.Account) (u : Auth.Account) :
  find (Auth.matches form hashed) l = Some u ->
  In u l /\ Auth.email u = Auth.formEmail form /\ Auth.password u = hashed.
Proof.
  intros H. apply find_some in H. destruct H as [Hin Hm].
  unfold Auth.matches in Hm. apply andb_prop in Hm.
  destruct Hm as [He Hp]. apply String.eqb_eq in He, Hp. auto.
Qed.

(** X18.  What [handleLogin] can do.  Either it fails: the error is set
    and the session (logged-in flag, both role flags, current user) and
    the form are as before, even if somebody was logged in.  Or it
    succeeds: the error is empty, the form is cleared, the session is
    logged in with exactly the role of the account found (administrator,
    active affiliate or registered user, never administrator and
    affiliate at once), and that account has the typed e-mail and a
    stored hash equal to the hash of the typed password. *)
Theorem login_outcome (db : Auth.Users) (s : Auth.Session) :
  let s' := Auth.handleLogin db s in
  let hashed := SimpleHash.simpleHash (Auth.formPassword (Auth.loginForm s)) in
  (Auth.authError s' = "Invalid email or password" /\
   Auth.isLoggedIn s' = Auth.isLoggedIn s /\
   Auth.isAdmin s' = Auth.isAdmin s /\
   Auth.isAffiliate s' = Auth.isAffiliate s /\
   Auth.currentUser s' = Auth.currentUser s /\
   Auth.loginForm s' = Auth.loginForm s) \/
  (Auth.authError s' = "" /\
   Auth.isLoggedIn s' = true /\
   Auth.loginForm s' = Auth.mkLoginForm "" "" /\
   match Auth.currentUser s' with
   | Some (Auth.Administrator e) =>
       Auth.isAdmin s' = true /\ Auth.isAffiliate s' = false /\
       e = Auth.adminEmail (Auth.adminCredentials db) /\
       Auth.formEmail (Auth.loginForm s) = e /\
       Auth.adminPassword (Auth.adminCredentials db) = hashed
   | Some (Auth.Affiliate a) =>
       Auth.isAdmin s' = false /\ Auth.isAffiliate s' = true /\
       In a (Auth.affiliateUsers db) /\ Auth.active a = true /\
       Auth.email a = Auth.formEmail (Auth.loginForm s) /\
       Auth.password a = hashed
   | Some (Auth.Registered u) =>
       Auth.isAdmin s' = false /\ Auth.isAffiliate s' = false /\
       In u (Auth.registeredUsers db) /\
       Auth.email u = Auth.formEmail (Auth.loginForm s) /\
       Auth.password u = hashed
   | None => False
   end).
Proof.
  cbv zeta. unfold Auth.handleLogin. cbv zeta.
  set (form := Auth.loginForm s).
  set (hashed := SimpleHash.simpleHash (Auth.formPassword form)).
  assert (Hreg :
    forall r,
      r = match find (Auth.matches form hashed) (Auth.registeredUsers db)
          with
          | Some user =>
              Auth.mkSession true false false (Some (Auth.Registered user))
                (Auth.mkLoginForm "" "") ""
                (mkModal true "Welcome Back!"
                   (String.append "Welcome back, "
                      (String.append (Auth.name user) "!")) "success")
          | None =>
              Auth.mkSession (Auth.isLoggedIn s) (Auth.isAdmin s)
                (Auth.isAffiliate s) (Auth.currentUser s) form
                "Invalid email or password"
                (mkModal true "Login Failed"
                   "Invalid email or password. Please try again." "error")
          end ->
      (Auth.authError r = "Invalid email or password" /\
       Auth.isLoggedIn r = Auth.isLoggedIn s /\
       Auth.isAdmin r = Auth.isAdmin s /\
       Auth.isAffiliate r = Auth.isAffiliate s /\
       Auth.currentUser r = Auth.currentUser s /\
       Auth.loginForm r = form) \/
      (Auth.authError r = "" /\ Auth.isLoggedIn r = true /\
       Auth.loginForm r = Auth.mkLoginForm "" "" /\
       match Auth.currentUser r with
       | Some (Auth.Administrator e) =>
           Auth.isAdmin r = true /\ Auth.isAffiliate r = false /\
           e = Auth.adminEmail (Auth.adminCredentials db) /\
           Auth.formEmail form = e /\
           Auth.adminPassword (Auth.adminCredentials db) = hashed
       | Some (Auth.Affiliate a) =>
           Auth.isAdmin r = false /\ Auth.isAffiliate r = true /\
           In a (Auth.affiliateUsers db) /\ Auth.active a = true /\
           Auth.email a = Auth.formEmail form /\ Auth.password a = hashed
       | Some (Auth.Registered u) =>
           Auth.isAdmin r = false /\ Auth.isAffiliate r = false /\
           In u (Auth.registeredUsers db) /\
           Auth.email u = Auth.formEmail form /\ Auth.password u = hashed
       | None => False
       end)).
  { intros r ->.
    destruct (find _ (Auth.registeredUsers db)) as [u|] eqn:Eu.
    - right. destruct (matches_spec _ _ _ _ Eu) as (? & ? & ?).
      cbn. repeat split; assumption.
    - left. cbn. repeat split. }
  destruct (String.eqb (Auth.formEmail form) _ && _) eqn:Eadm.
  - right. apply andb_prop in Eadm. destruct Eadm as [He Hp].
    apply String.eqb_eq in He, Hp. cbn. repeat split; auto.
  - destruct (find _ (Auth.affiliateUsers db)) as [a|] eqn:Ea.
    + destruct (Auth.active a) eqn:Eact.
      * right. destruct (matches_spec _ _ _ _ Ea) as (? & ? & ?).
        cbn. repeat split; assumption.
      * now apply Hreg.
    + now apply Hreg.
Qed.

(** X19.  The order in which [handleLogin] looks.  The administrator's
    credentials always log in as administrator, whatever the two user
    lists hold.  Otherwise only the first affiliate with the typed e-mail
    and password hash counts: when that one is not active, the login
    goes on as if there were no affiliates at all, even if a later
    affiliate with the same credentials is active. *)
Theorem login_lookup_order (db : Auth.Users) (s : Auth.Session) :
  let form := Auth.loginForm s in
  let hashed := SimpleHash.simpleHash (Auth.formPassword form) in
  (Auth.formEmail form = Auth.adminEmail (Auth.adminCredentials db) ->
   hashed = Auth.adminPassword (Auth.adminCredentials db) ->
   Auth.currentUser (Auth.handleLogin db s)
     = Some (Auth.Administrator
               (Auth.adminEmail (Auth.adminCredentials db))) /\
   Auth.isAdmin (Auth.handleLogin db s) = true /\
   Auth.isAffiliate (Auth.handleLogin db s) = false) /\
  (forall a : Auth.Account,
     (Auth.formEmail form <> Auth.adminEmail (Auth.adminCredentials db) \/
      hashed <> Auth.adminPassword (Auth.adminCredentials db)) ->
     find (Auth.matches form hashed) (Auth.affiliateUsers db) = Some a ->
     Auth.active a = false ->
     Auth.handleLogin db s =
     Auth.handleLogin
       (Auth.mkUsers (Auth.adminCredentials db) [] (Auth.registeredUsers db))
       s).
Proof.
  cbv zeta. split.
  - intros He Hp. unfold Auth.handleLogin. cbv zeta.
    rewrite He, Hp, !String.eqb_refl. cbn. auto.
  - intros a Hna Ha Hact. unfold Auth.handleLogin. cbv zeta.
    cbn [Auth.adminCredentials Auth.affiliateUsers Auth.registeredUsers].
    assert (E : String.eqb (Auth.formEmail (Auth.loginForm s))
                  (Auth.adminEmail (Auth.adminCredentials db)) &&
                String.eqb
                  (SimpleHash.simpleHash
                     (Auth.formPassword (Auth.loginForm s)))
                  (Auth.adminPassword (Auth.adminCredentials db)) = false).
    { apply andb_false_iff.
      destruct Hna as [H|H]; [left|right]; now apply String.eqb_neq. }
    rewrite E, Ha, Hact. reflexivity.
Qed.

Lemma login_lookup_order_witness :
  Auth.isAdmin
    (Auth.handleLogin sample_users
       (Auth.typed "admin@nextordersl.com" "admin123" logged_out)) = true /\
  Auth.handleLogin sample_users
    (Auth.typed "sam@example.com" "secretAa" logged_out) =
  Auth.handleLogin
    (Auth.mkUsers (Auth.adminCredentials sample_users) []
       (Auth.registeredUsers sample_users))
    (Auth.typed "sam@example.com" "secretAa" logged_out).
Proof.
  split.
  - apply (proj1 (login_lookup_order sample_users
                    (Auth.typed "admin@nextordersl.com" "admin123"
                       logged_out)));
      reflexivity.
  - apply (proj2 (login_lookup_order sample_users
                    (Auth.typed "sam@example.com" "secretAa" logged_out))
             (Auth.mkAccount "Sam" "sam@example.com"
                (SimpleHash.simpleHash "secretAa") (Some "suspended"))).
    + left. discriminate.
    + reflexivity.
    + reflexivity.
Defined.

(** X20.  Passwords are compared by [simpleHash] only, so a password with
    [Aa] somewhere in it and the same password with [BB] there log in
    alike: after [handleLogin] the session, the error and the message
    are the same for both, whatever the user data base holds. *)
Theorem login_accepts_colliding_password (db : Auth.Users)
    (s : Auth.Session) (e p q : string) :
  let sA := Auth.handleLogin db (Auth.typed e (p ++ "Aa" ++ q) s) in
  let sB := Auth.handleLogin db (Auth.typed e (p ++ "BB" ++ q) s) in
  Auth.isLoggedIn sA = Auth.isLoggedIn sB /\
  Auth.isAdmin sA = Auth.isAdmin sB /\
  Auth.isAffiliate sA = Auth.isAffiliate sB /\
  Auth.currentUser sA = Auth.currentUser sB /\
  Auth.authError sA = Auth.authError sB /\
  Auth.modal sA = Auth.modal sB.
Proof.
  cbv zeta. unfold Auth.handleLogin. cbv zeta.
  cbn [Auth.typed Auth.loginForm Auth.formEmail Auth.formPassword
       Auth.isLoggedIn Auth.isAdmin Auth.isAffiliate Auth.currentUser].
  rewrite (simpleHash_Aa_BB p q).
  set (hashed := SimpleHash.simpleHash (p ++ "BB" ++ q)).
  assert (Hm : forall l,
    find (Auth.matches (Auth.mkLoginForm e (p ++ "Aa" ++ q)) hashed) l =
    find (Auth.matches (Auth.mkLoginForm e (p ++ "BB" ++ q)) hashed) l)
    by reflexivity.
  rewrite !Hm.
  destruct (String.eqb e _ && _); [cbn; repeat split|].
  destruct (find _ (Auth.affiliateUsers db)) as [a|];
    [destruct (Auth.active a); [cbn; repeat split|]|];
    destruct (find _ (Auth.registeredUsers db)); cbn; repeat split.
Qed.

(** * Deleting a product *)

Lemma without_spec (P : Type) (pid : P -> Z) (i : Z) (l : list P) (p : P) :
  In p (Catalogue.without P pid i l) <-> In p l /\ pid p <> i.
Proof.
  unfold Catalogue.without. rewrite filter_In. split; intros [H1 H2].
  - split; [exact H1|]. apply negb_true_iff, Z.eqb_neq in H2. exact H2.
  - split; [exact H1|]. now apply negb_true_iff, Z.eqb_neq.
Qed.

Lemma without_absent (P : Type) (pid : P -> Z) (i : Z) (l : list P) :
  find (fun p => Z.eqb (pid p) i) l = None -> Catalogue.without P pid i l = l.
Proof.
  unfold Catalogue.without. induction l as [|p l IH]; simpl; [reflexivity|].
  destruct (Z.eqb (pid p) i); [discriminate|]. simpl.
  intros H. now rewrite IH.
Qed.

Lemma without_find (P : Type) (pid : P -> Z) (i : Z) (l : list P) :
  find (fun p => Z.eqb (pid p) i) (Catalogue.without P pid i l) = None.
Proof.
  unfold Catalogue.without. induction l as [|p l IH]; simpl; [reflexivity|].
  destruct (Z.eqb (pid p) i) eqn:E; simpl; [exact IH|].
  now rewrite E.
Qed.

(** X21.  Who can change the catalogue through [deleteProduct].  The
    product list is left as it was unless the caller is an administrator
    or an affiliate and answers the confirmation with OK; an affiliate
    moreover only for an existing product whose [affiliateId] is the
    caller's own id. *)
Theorem delete_needs_privilege (P : Type) (pid : P -> Z)
    (affiliateId : P -> option Z) (who : Catalogue.Caller) (i : Z)
    (st : Catalogue.Store P) :
  let r := Catalogue.deleteProduct P pid affiliateId who i st in
  Catalogue.products P (fst r) = Catalogue.products P st \/
  (Catalogue.confirms who = true /\
   (Catalogue.isAdmin who = true \/ Catalogue.isAffiliate who = true) /\
   (Catalogue.isAffiliate who = false \/
    exists product : P,
      find (fun p => Z.eqb (pid p) i) (Catalogue.products P st)
        = Some product /\
      affiliateId product = Catalogue.currentUserId who)).
Proof.
  cbv zeta. unfold Catalogue.deleteProduct.
  destruct (Catalogue.isAdmin who) eqn:Had;
    destruct (Catalogue.isAffiliate who) eqn:Haf; cbn [negb andb];
    try (left; reflexivity);
    destruct (find _ (Catalogue.products P st)) as [product|] eqn:Ef;
    try (left; reflexivity).
  - destruct (Catalogue.differs _ _) eqn:Ed; [left; reflexivity|].
    destruct (Catalogue.confirms who); [|left; reflexivity].
    right. split; [reflexivity|]. split; [now left|]. right.
    exists product. split; [reflexivity|].
    unfold Catalogue.differs in Ed.
    destruct (affiliateId product), (Catalogue.currentUserId who);
      try discriminate; [|reflexivity].
    apply negb_false_iff, Z.eqb_eq in Ed. now subst.
  - destruct (Catalogue.confirms who); [|left; reflexivity].
    right. split; [reflexivity|]. split; [now left|]. now left.
  - destruct (Catalogue.confirms who); [|left; reflexivity].
    left. cbn. now apply without_absent.
  - destruct (Catalogue.differs _ _) eqn:Ed; [left; reflexivity|].
    destruct (Catalogue.confirms who); [|left; reflexivity].
    right. split; [reflexivity|]. split; [now right|]. right.
    exists product. split; [reflexivity|].
    unfold Catalogue.differs in Ed.
    destruct (affiliateId product), (Catalogue.currentUserId who);
      try discriminate; [|reflexivity].
    apply negb_false_iff, Z.eqb_eq in Ed. now subst.
Qed.

(** X22.  A confirmed deletion by a caller who may delete the product
    removes every product with that id and nothing else: the remaining
    products are the others, in their order, a lookup of the id finds
    nothing afterwards, and the id is gone from the owning affiliate's
    list of product ids (when the product has a non-zero
    [affiliateId]); the lists of all other affiliates are untouched. *)
Theorem delete_removes_that_product (P : Type) (pid : P -> Z)
    (affiliateId : P -> option Z) (who : Catalogue.Caller) (i : Z)
    (st : Catalogue.Store P) (product : P) :
  Catalogue.isAdmin who || Catalogue.isAffiliate who = true ->
  Catalogue.confirms who = true ->
  find (fun p => Z.eqb (pid p) i) (Catalogue.products P st)
    = Some product ->
  Catalogue.isAffiliate who &&
    Catalogue.differs (affiliateId product) (Catalogue.currentUserId who)
    = false ->
  let r := Catalogue.deleteProduct P pid affiliateId who i st in
  snd r = Normal /\
  Catalogue.products P (fst r) = Catalogue.without P pid i (Catalogue.products P st) /\
  (forall p : P,
     In p (Catalogue.products P (fst r)) <->
     In p (Catalogue.products P st) /\ pid p <> i) /\
  find (fun p => Z.eqb (pid p) i) (Catalogue.products P (fst r)) = None /\
  (forall k : Z,
     affiliateId product = Some k -> k <> 0%Z ->
     exists l : list Z,
       Catalogue.affiliateProductIds P (fst r) k = Some l /\ ~ In i l) /\
  (forall k : Z,
     affiliateId product <> Some k ->
     Catalogue.affiliateProductIds P (fst r) k
       = Catalogue.affiliateProductIds P st k).
Proof.
  intros Hrole Hconf Hfind Hown. cbv zeta. unfold Catalogue.deleteProduct.
  replace (negb (Catalogue.isAdmin who) && negb (Catalogue.isAffiliate who))
    with false
    by (symmetry; rewrite <- negb_orb; now apply negb_false_iff).
  rewrite Hfind, Hown, Hconf. cbn [fst snd Catalogue.products
    Catalogue.affiliateProductIds].
  split; [reflexivity|]. split; [reflexivity|].
  split; [intros p; apply without_spec|].
  split; [apply without_find|]. split.
  - intros k Hk Hk0. rewrite Hk.
    destruct (Z.eqb_spec k 0) as [->|_]; [contradiction|].
    unfold Catalogue.forget. rewrite Z.eqb_refl. eexists. split;
      [reflexivity|].
    rewrite filter_In. intros [_ H]. now rewrite Z.eqb_refl in H.
  - intros k Hk. destruct (affiliateId product) as [k'|]; [|reflexivity].
    destruct (Z.eqb k' 0); [reflexivity|].
    unfold Catalogue.forget.
    destruct (Z.eqb_spec k k') as [->|_]; [now elim Hk | reflexivity].
Qed.

(** X23.  [deleteProduct] on an id that no product has.  For an affiliate
    it throws before anything is written or asked.  For an administrator
    who is not an affiliate it asks for confirmation and, on OK, throws
    after the (unchanged) product list is stored and before the success
    message; on Cancel it does nothing. *)
Theorem delete_of_unknown_id (P : Type) (pid : P -> Z)
    (affiliateId : P -> option Z) (who : Catalogue.Caller) (i : Z)
    (st : Catalogue.Store P) :
  find (fun p => Z.eqb (pid p) i) (Catalogue.products P st) = None ->
  let r := Catalogue.deleteProduct P pid affiliateId who i st in
  (Catalogue.isAffiliate who = true -> r = (st, Threw)) /\
  (Catalogue.isAdmin who = true -> Catalogue.isAffiliate who = false ->
   snd r = (if Catalogue.confirms who then Threw else Normal) /\
   Catalogue.products P (fst r) = Catalogue.products P st /\
   Catalogue.affiliateProductIds P (fst r)
     = Catalogue.affiliateProductIds P st /\
   Catalogue.modal P (fst r) = Catalogue.modal P st).
Proof.
  intros Hfind. cbv zeta. unfold Catalogue.deleteProduct. rewrite Hfind.
  split.
  - intros Haf. rewrite Haf, andb_false_r. reflexivity.
  - intros Had Haf. rewrite Had, Haf. cbn [negb andb].
    destruct (Catalogue.confirms who); cbn; repeat split.
    now apply without_absent.
Qed.

Lemma delete_removes_that_product_witness :
  find (fun p => Z.eqb (id p) 3)
    (Catalogue.products ProductObj
       (fst (Catalogue.deleteProduct ProductObj id sample_owner
               affiliate_caller 3 sample_store))) = None.
Proof.
  exact (proj1 (proj2 (proj2 (proj2
    (delete_removes_that_product ProductObj id sample_owner
       affiliate_caller 3 sample_store
       (mkProduct 3 "Korean Skincare Set 5pcs")
       eq_refl eq_refl eq_refl eq_refl))))).
Defined.

Lemma delete_of_unknown_id_witness :
  Catalogue.deleteProduct ProductObj id sample_owner affiliate_caller 9
    sample_store = (sample_store, Threw) /\
  snd (Catalogue.deleteProduct ProductObj id sample_owner admin_caller 9
         sample_store) = Threw.
Proof.
  split.
  - exact (proj1
      (delete_of_unknown_id ProductObj id sample_owner affiliate_caller 9
         sample_store eq_refl) eq_refl).
  - exact (proj1 (proj2
      (delete_of_unknown_id ProductObj id sample_owner admin_caller 9
         sample_store eq_refl) eq_refl eq_refl)).
Defined.

(** X24.  Deleting a product and going back to it.  Once a confirmed
    deletion of product [i] has been stored and [productsRef] holds the
    stored list, a back notification that pops to a [Product i] entry
    shows the home grid, for a session that is not an affiliate. *)
Theorem back_onto_deleted_product (owner : ProductObj -> option Z)
    (who : Catalogue.Caller) (st : Catalogue.Store ProductObj)
    (product : ProductObj) (hash : string) (s : State)
    (rest : list NavEntry) (i : Z) (e : NavEntry) :
  Catalogue.isAdmin who || Catalogue.isAffiliate who = true ->
  Catalogue.confirms who = true ->
  find (fun p => Z.eqb (id p) i) (Catalogue.products ProductObj st)
    = Some product ->
  Catalogue.isAffiliate who &&
    Catalogue.differs (owner product) (Catalogue.currentUserId who)
    = false ->
  productsRef s =
    Catalogue.products ProductObj
      (fst (Catalogue.deleteProduct ProductObj id owner who i st)) ->
  allowExitRef s = false ->
  exitConfirmationShownRef s = false ->
  isAffiliate s = false ->
  navStack s = rest ++ [Product i; e] ->
  ScriptUi.renderMain (fst (Script.step Available (PopState hash) s))
    = ScriptUi.HomeGrid.
Proof.
  intros Hrole Hconf Hfind Hown Href Ha Hc Hf Hst.
  assert (Hgone : find_product i (productsRef s) = None).
  { rewrite Href. unfold Catalogue.deleteProduct.
    replace (negb (Catalogue.isAdmin who) &&
             negb (Catalogue.isAffiliate who)) with false
      by (symmetry; rewrite <- negb_orb; now apply negb_false_iff).
    rewrite Hfind, Hown, Hconf. cbn [fst Catalogue.products].
    apply (without_find ProductObj id). }
  destruct (pop_to_product_hooks hash s rest i e Ha Hc Hst) as [Haf Hv].
  rewrite Hgone in Hv. destruct Hv as [Hsel Htab].
  unfold ScriptUi.renderMain. now rewrite Haf, Hf, Hsel, Htab.
Qed.

Lemma back_onto_deleted_product_witness :
  ScriptUi.renderMain
    (fst (Script.step Available (PopState "") after_deletion))
    = ScriptUi.HomeGrid.
Proof.
  exact (back_onto_deleted_product sample_owner admin_caller sample_store
           (mkProduct 2 "Smart Fitness Watch Pro") "" after_deletion
           [Home] 2 (Tab "cart")
           eq_refl eq_refl eq_refl eq_refl eq_refl eq_refl eq_refl eq_refl
           eq_refl).
Defined.
